(** * huggpackreator: archive a folder and upload it to a model hub

    A shallow embedding of [src/__init__.py], the single module of the
    repository, together with the properties its specification states.

    Conventions of the embedding.
    - A Python [str] is a Rocq [string]: the sequence of bytes of its UTF-8
      encoding.  The comparisons against ASCII literals (['/'], ['.zip'],
      ['hf_']) are the same on bytes and on code points; [len] counts the
      code points, and [strip] removes the white space of Unicode, by the
      bytes that encode it.
    - The file system is a finite tree together with the working directory
      ([FS.view]); the Python standard library calls the module makes on it
      ([Path.rglob], [Path.is_file], [Path.iterdir], [Path.relative_to],
      [ZipFile.write]) are functions on it.  A path is resolved as the
      operating system does: from the root when it is absolute, from the
      working directory otherwise, with ['..'] leading to the parent.  The
      tree holds no symbolic link.  The tree is the source side only: the
      archive is written to a separate store of output files ([disk]).
    - What the module obtains from its environment (the clock, the
      importability of the client library, [os.path.isdir],
      [os.path.realpath], the temporary directory, whether the archive file
      can be created and the entries read, the answers of the remote hub) is
      a field of the record [world].
    - Effects are threaded explicitly through a small state monad whose state
      holds the output files and the trace of external calls made so far.
    - Console output is modelled for the two validators only, where the
      specification speaks about warnings. *)

From Stdlib Require Import Ascii.
From Stdlib Require String.
From stdpp Require Import base option list gmap strings.

Set Warnings "-abstract-large-number,-register-all".

Local Open Scope char_scope.
Local Open Scope stdpp_scope.

(** ** Python string built-ins *)

Module Py.

(** [bool(s)]: a string is truthy when it is not empty. *)
Definition truthy (s : string) : bool :=
  match s with
  | EmptyString => false
  | String _ _ => true
  end.

(** [s.startswith(p)] *)
Fixpoint startswith (s p : string) {struct p} : bool :=
  match p with
  | EmptyString => true
  | String c p' =>
      match s with
      | EmptyString => false
      | String d s' => if Ascii.eqb c d then startswith s' p' else false
      end
  end.

(** [s[:n]] and [s[n:]] for a non-negative [n]. *)
Fixpoint take (n : nat) (s : string) : string :=
  match n, s with
  | S n', String c s' => String c (take n' s')
  | _, _ => EmptyString
  end.

Fixpoint drop (n : nat) (s : string) : string :=
  match n, s with
  | S n', String _ s' => drop n' s'
  | _, _ => s
  end.

(** [s[:-n]] for a positive [n]. *)
Definition drop_last (n : nat) (s : string) : string :=
  take (String.length s - n) s.

(** [s.endswith(suf)] *)
Definition endswith (s suf : string) : bool :=
  (String.length suf <=? String.length s)%nat
  && String.eqb (drop (String.length s - String.length suf) s) suf.

(** [s.lower()], on the ASCII letters. *)
Definition lower_char (c : ascii) : ascii :=
  let n := nat_of_ascii c in
  if ((65 <=? n) && (n <=? 90))%nat then ascii_of_nat (n + 32) else c.

Fixpoint lower (s : string) : string :=
  match s with
  | EmptyString => EmptyString
  | String c s' => String (lower_char c) (lower s')
  end.

(** [len(s)]: the number of code points, which is the number of bytes
    that are not continuation bytes (0x80-0xBF). *)
Definition continuation (c : ascii) : bool :=
  let n := nat_of_ascii c in
  ((128 <=? n) && (n <? 192))%nat.

Fixpoint len (s : string) : nat :=
  match s with
  | EmptyString => 0
  | String c s' => ((if continuation c then 0 else 1) + len s')%nat
  end.

(** The white space of [str.strip()] and [str.isspace()], by the bytes of
    its encoding.  In one byte: tab, line feed, vertical tab, form feed,
    carriage return, the four separators 0x1c-0x1f, space.  In two bytes:
    U+0085 and U+00A0.  In three bytes: U+1680, U+2000 to U+200A, U+2028,
    U+2029, U+202F, U+205F and U+3000. *)
Definition space1 (c : ascii) : bool :=
  let n := nat_of_ascii c in
  ((9 <=? n) && (n <=? 13) || (28 <=? n) && (n <=? 32))%nat.

Definition space2 (c1 c2 : ascii) : bool :=
  let n1 := nat_of_ascii c1 in
  let n2 := nat_of_ascii c2 in
  ((n1 =? 194) && ((n2 =? 133) || (n2 =? 160)))%nat.

Definition space3 (c1 c2 c3 : ascii) : bool :=
  let n1 := nat_of_ascii c1 in
  let n2 := nat_of_ascii c2 in
  let n3 := nat_of_ascii c3 in
  ((n1 =? 225) && (n2 =? 154) && (n3 =? 128)
   || (n1 =? 226) && (n2 =? 128)
      && ((128 <=? n3) && (n3 <=? 138)
          || (n3 =? 168) || (n3 =? 169) || (n3 =? 175))
   || (n1 =? 226) && (n2 =? 129) && (n3 =? 159)
   || (n1 =? 227) && (n2 =? 128) && (n3 =? 128))%nat.

(** Whether a string is made of white space only (the empty string is). *)
Fixpoint whitespace (s : string) : bool :=
  match s with
  | EmptyString => true
  | String c1 s1 =>
      if space1 c1 then whitespace s1
      else
        match s1 with
        | String c2 s2 =>
            if space2 c1 c2 then whitespace s2
            else
              match s2 with
              | String c3 s3 =>
                  if space3 c1 c2 c3 then whitespace s3 else false
              | EmptyString => false
              end
        | EmptyString => false
        end
  end.

(** [s.lstrip()]: the white space at the start goes. *)
Fixpoint lstrip (s : string) : string :=
  match s with
  | EmptyString => EmptyString
  | String c1 s1 =>
      if space1 c1 then lstrip s1
      else
        match s1 with
        | String c2 s2 =>
            if space2 c1 c2 then lstrip s2
            else
              match s2 with
              | String c3 s3 => if space3 c1 c2 c3 then lstrip s3 else s
              | EmptyString => s
              end
        | EmptyString => s
        end
  end.

(** [s.rstrip()]: the string is cut where only white space follows. *)
Fixpoint rstrip (s : string) : string :=
  match s with
  | EmptyString => EmptyString
  | String c s' => if whitespace s then EmptyString else String c (rstrip s')
  end.

(** [s.strip()] *)
Definition strip (s : string) : string := rstrip (lstrip s).

(** [c in s] for a one-character string [c]. *)
Fixpoint contains (c : ascii) (s : string) : bool :=
  match s with
  | EmptyString => false
  | String d s' => Ascii.eqb c d || contains c s'
  end.

(** [s.split(sep)] for a one-character separator: always at least one
    part. *)
Fixpoint split (sep : ascii) (s : string) : list string :=
  match s with
  | EmptyString => [EmptyString]
  | String c s' =>
      if Ascii.eqb c sep then EmptyString :: split sep s'
      else
        match split sep s' with
        | [] => [String c EmptyString]
        | part :: parts => String c part :: parts
        end
  end.

(** [sep.join(parts)] *)
Fixpoint join (sep : string) (parts : list string) : string :=
  match parts with
  | [] => EmptyString
  | [part] => part
  | part :: parts' => part +:+ sep +:+ join sep parts'
  end.

End Py.

(** ** [os.path] and [pathlib] on strings *)

(** [os.path.join(a, b)] on POSIX. *)
Definition os_path_join (a b : string) : string :=
  if Py.startswith b "/" then b
  else if negb (Py.truthy a) || Py.endswith a "/" then a +:+ b
  else a +:+ "/" +:+ b.

(** [os.path.basename(p)]: what follows the last ['/']. *)
Definition os_path_basename (p : string) : string :=
  List.last (Py.split "/" p) EmptyString.

(** The components of a path: what stands between the slashes, the empty
    components and the ['.'] components dropped. *)
Definition components (s : string) : list string :=
  List.filter (fun c => Py.truthy c && negb (String.eqb c "."))
              (Py.split "/" s).

(** [Path(s).parts]: the components, after the root ['/'] when the path is
    absolute.  (Exactly two slashes at the start are a root of their own for
    [pathlib], which the operating system resolves as one.) *)
Definition Path (s : string) : list string :=
  (if Py.startswith s "/" then ["/"] else []) ++ components s.

(** [Path(s).name]: the last component, or the empty string. *)
Definition Path_name (s : string) : string :=
  List.last (components s) EmptyString.

(** The place a path names: its components with every ['..'] resolved
    against the directory that precedes it (the parent of the root is the
    root). *)
Fixpoint resolve (place parts : list string) : list string :=
  match parts with
  | [] => place
  | c :: parts' =>
      if String.eqb c ".." then resolve (removelast place) parts'
      else resolve (place ++ [c]) parts'
  end.

Definition location (p : string) : list string := resolve [] (components p).

(** Whether a place lies below a directory. *)
Fixpoint below (dir place : list string) : bool :=
  match dir, place with
  | [], _ :: _ => true
  | d :: dir', c :: place' => String.eqb d c && below dir' place'
  | _, _ => false
  end.

(** Whether [p] names a file in the directory [dir] or in a directory below
    it, both given by absolute paths. *)
Definition inside (dir p : string) : bool :=
  Py.startswith dir "/" && Py.startswith p "/"
  && below (location dir) (location p).

(** ** The clock *)

(** A [datetime] value, as [datetime.now()] returns it. *)
Record datetime := {
  year : nat; month : nat; day : nat;
  hour : nat; minute : nat; second : nat
}.

(** The invariants of Python's [datetime] type. *)
Definition valid_datetime (t : datetime) : Prop :=
  (1 <= year t <= 9999 /\ 1 <= month t <= 12 /\ 1 <= day t <= 31 /\
   hour t < 24 /\ minute t < 60 /\ second t < 60)%nat.

Definition digit (n : nat) : ascii := ascii_of_nat (48 + n mod 10).

(** Zero-padded decimal fields of width two and four. *)
Definition pad2 (n : nat) : string :=
  String (digit (n / 10)) (String (digit n) EmptyString).

Definition pad4 (n : nat) : string :=
  String (digit (n / 1000)) (String (digit (n / 100)) (pad2 n)).

(** A number below ten thousand in decimal, without padding: the year as
    the GNU C library, to which [strftime] hands the format, prints it for
    [%Y]. *)
Definition unpadded (n : nat) : string :=
  if (n <? 10)%nat then String (digit n) EmptyString
  else if (n <? 100)%nat then pad2 n
  else if (n <? 1000)%nat then String (digit (n / 100)) (pad2 n)
  else pad4 n.

(** [t.strftime(fmt)] for the directives the module uses. *)
Fixpoint strftime (t : datetime) (fmt : string) : string :=
  match fmt with
  | EmptyString => EmptyString
  | String "%" (String d rest) =>
      (if Ascii.eqb d "Y" then unpadded (year t)
       else if Ascii.eqb d "m" then pad2 (month t)
       else if Ascii.eqb d "d" then pad2 (day t)
       else if Ascii.eqb d "H" then pad2 (hour t)
       else if Ascii.eqb d "M" then pad2 (minute t)
       else if Ascii.eqb d "S" then pad2 (second t)
       else String "%" (String d EmptyString))
      +:+ strftime t rest
  | String c rest => String c (strftime t rest)
  end.

(** ** The file system *)

Module FS.

(** A directory entry is a regular file, a directory, or something that
    is neither (a FIFO, a socket, a dangling link). *)
Inductive node :=
| File (data : string)
| Special
| Dir (children : list (string * node)).

(** A path is the list of its components, as [Path.parts]. *)
Definition path := list string.

Fixpoint find_child (name : string) (children : list (string * node))
  : option node :=
  match children with
  | [] => None
  | (k, v) :: rest => if String.eqb k name then Some v else find_child name rest
  end.

(** The node reached from [n] by going down through the entries named. *)
Fixpoint descend (n : node) (p : path) : option node :=
  match p with
  | [] => Some n
  | c :: p' =>
      match n with
      | Dir children =>
          match find_child c children with
          | Some v => descend v p'
          | None => None
          end
      | _ => None
      end
  end.

(** The tree from the root, and the working directory of the process as
    the path that leads to it from the root. *)
Record view := {
  tree : node;
  cwd : path
}.

(** How the operating system follows the components of a path from the
    directory [n], whose ancestors are [above], the parent first: ['..']
    leads to the parent (to the root itself at the root), a name to the entry
    that bears it. *)
Fixpoint walk (above : list node) (n : node) (p : path)
  : option (list node * node) :=
  match p with
  | [] => Some (above, n)
  | c :: p' =>
      match n with
      | Dir children =>
          if String.eqb c ".." then
            match above with
            | parent :: above' => walk above' parent p'
            | [] => walk [] n p'
            end
          else
            match find_child c children with
            | Some v => walk (n :: above) v p'
            | None => None
            end
      | _ => None
      end
  end.

Definition absolute (p : path) : bool :=
  match p with
  | c :: _ => String.eqb c "/"
  | [] => false
  end.

(** The node a path leads to: from the root when the path is absolute, from
    the working directory otherwise. *)
Definition lookup (v : view) (p : path) : option node :=
  if absolute p then snd <$> walk [] (tree v) (tail p)
  else
    match walk [] (tree v) (cwd v) with
    | Some (above, n) => snd <$> walk above n p
    | None => None
    end.

(** [Path.is_file()] and [Path.is_dir()] *)
Definition is_file (v : view) (p : path) : bool :=
  match lookup v p with Some (File _) => true | _ => false end.

Definition is_dir (v : view) (p : path) : bool :=
  match lookup v p with Some (Dir _) => true | _ => false end.

(** Names a directory entry can bear: non-empty, without a slash, and
    neither ['.'] nor ['..'].  Listing a directory yields no other name. *)
Definition plainb (name : string) : bool :=
  Py.truthy name && negb (Py.contains "/" name)
  && negb (String.eqb name ".") && negb (String.eqb name "..").

Definition listed (children : list (string * node)) : list (string * node) :=
  List.filter (fun kv => plainb (fst kv)) children.

(** [Path.iterdir()]: the entries of a directory, in the order the
    operating system lists them. *)
Definition iterdir (v : view) (p : path) : list path :=
  match lookup v p with
  | Some (Dir children) => map (fun kv => p ++ [fst kv]) (listed children)
  | _ => []
  end.

(** The directories [Path.rglob] visits below a node, the node itself
    first, each directory before its subdirectories; paths are relative
    to the node. *)
Fixpoint dirs_under (n : node) : list path :=
  match n with
  | Dir children =>
      [] :: flat_map (fun kv =>
                        if plainb (fst kv)
                        then map (cons (fst kv)) (dirs_under (snd kv))
                        else [])
                     children
  | _ => []
  end.

Definition iterate_directories (v : view) (p : path) : list path :=
  match lookup v p with
  | Some n => map (app p) (dirs_under n)
  | None => []
  end.

(** [Path.rglob('*')]: every entry of every directory visited. *)
Definition rglob (v : view) (p : path) : list path :=
  flat_map (iterdir v) (iterate_directories v p).

(** The entries of the directory at [d] below [n], as paths from [n]. *)
Definition entries_at (n : node) (d : path) : list path :=
  match descend n d with
  | Some (Dir children) => map (fun kv => d ++ [fst kv]) (listed children)
  | _ => []
  end.

(** [Path.relative_to(base)]; [None] stands for the [ValueError] raised
    when [base] is not a prefix. *)
Fixpoint relative_to (p base : path) {struct base} : option path :=
  match base with
  | [] => Some p
  | b :: base' =>
      match p with
      | c :: p' => if String.eqb b c then relative_to p' base' else None
      | [] => None
      end
  end.

(** The number of regular files in a tree. *)
Fixpoint files (n : node) : nat :=
  match n with
  | File _ => 1
  | Special => 0
  | Dir children => list_sum (map (fun kv => files (snd kv)) children)
  end.


Definition plain (name : string) : Prop :=
  name <> EmptyString /\ Py.contains "/" name = false /\
  name <> "." /\ name <> "..".

(** A well-formed tree: plain names, no name twice in a directory. *)
Fixpoint wf (n : node) : Prop :=
  match n with
  | Dir children =>
      NoDup (map fst children) /\
      (fix all (l : list (string * node)) : Prop :=
         match l with
         | [] => True
         | kv :: l' => plain (fst kv) /\ wf (snd kv) /\ all l'
         end) children
  | _ => True
  end.

End FS.

(** ** Archives *)

Module Zip.

Inductive compression := ZIP_STORED | ZIP_DEFLATED.

(** A member of an archive: its name, whether it is a directory
    placeholder, and the data stored under it. *)
Record entry := {
  filename : string;
  is_dir : bool;
  content : string
}.

(** An archive with the parameters it was opened with. *)
Record archive := {
  method : compression;
  compresslevel : option nat;
  entries : list entry
}.

(** [ZipFile(path, 'w', method, compresslevel=level)] *)
Definition open (m : compression) (level : option nat) : archive :=
  {| method := m; compresslevel := level; entries := [] |}.

(** [zipf.write(file_path, arcname)]: a directory is stored under
    [arcname] followed by a slash, a regular file under [arcname] with its
    data; [None] stands for the [OSError] raised when the path cannot be
    read ([readable] tells whether the operating system lets it be). *)
Definition write (fs : FS.view) (readable : bool)
    (file_path arcname : FS.path) (z : archive) : option archive :=
  if negb readable then None else
  match FS.lookup fs file_path with
  | Some (FS.Dir _) =>
      Some {| method := method z; compresslevel := compresslevel z;
              entries := entries z ++
                [{| filename := Py.join "/" arcname +:+ "/";
                    is_dir := true; content := EmptyString |}] |}
  | Some (FS.File data) =>
      Some {| method := method z; compresslevel := compresslevel z;
              entries := entries z ++
                [{| filename := Py.join "/" arcname;
                    is_dir := false; content := data |}] |}
  | _ => None
  end.

Definition namelist (z : archive) : list string := map filename (entries z).

End Zip.

(** ** The environment and the effects *)

(** Whether [from huggingface_hub import ...] succeeds.  When it does not,
    [pip] is run; [Missing None] is a library that [pip] installs and that
    can be imported afterwards, [Missing (Some e)] one for which the
    installation or the second import raises an exception printed as [e]. *)
Inductive library :=
| Importable
| Missing (failure : option string).

Record world := {
  library_state : library;
  (** [datetime.now()] *)
  now : datetime;
  (** [os.path.isdir] and [os.path.realpath] *)
  isdir : string -> bool;
  realpath : string -> string;
  (** the directory tree read through [pathlib], with the working
      directory *)
  fs : FS.view;
  (** whether [zipf.write] can read the entry at a path *)
  can_read : FS.path -> bool;
  (** whether [ZipFile(zip_path, 'w')] can create the file: the directory it
      is to stand in exists and can be written to *)
  can_open : string -> bool;
  (** [tempfile.TemporaryDirectory()]: the directory created, or the text of
      the exception raised *)
  mkdtemp : string + string;
  (** [api.repo_info(repo_id, token)] and [api.create_repo(repo_id, token)]:
      [true] when the call returns, [false] when it raises *)
  repo_info : string -> string -> bool;
  create_repo : string -> string -> bool;
  (** [upload_file(path_or_fileobj, path_in_repo, repo_id, token,
      commit_message)]: the URL returned, or [None] when it raises *)
  upload_file : string -> string -> string -> string -> string -> option string
}.

(** The calls that leave the process. *)
Inductive event :=
| PipInstall
| IsDir (path : string)
| RealPath (path : string)
| MkTemp
| ZipOpen (zip_path : string)
| RepoInfo (repo_id token : string)
| CreateRepo (repo_id token : string)
| UploadFile (path_in_repo repo_id token commit_message : string)
             (payload : option Zip.archive).

(** Folder lookups, archive creation and calls to the remote hub. *)
Definition is_lookup (e : event) : bool :=
  match e with IsDir _ | RealPath _ => true | _ => false end.

Definition is_archive (e : event) : bool :=
  match e with ZipOpen _ => true | _ => false end.

Definition is_network (e : event) : bool :=
  match e with
  | RepoInfo _ _ | CreateRepo _ _ | UploadFile _ _ _ _ _ => true
  | _ => false
  end.

(** The mutable part: the output files and the calls made so far. *)
Record state := {
  disk : gmap string Zip.archive;
  trace : list event
}.

Definition M (A : Type) : Type := state -> A * state.

#[global] Instance M_ret : MRet M := fun A a s => (a, s).
#[global] Instance M_bind : MBind M :=
  fun A B k m s => let (a, s') := m s in k a s'.

Definition emit (e : event) : M unit :=
  fun s => (tt, {| disk := disk s; trace := trace s ++ [e] |}).

Definition store (path : string) (z : Zip.archive) : M unit :=
  fun s => (tt, {| disk := <[path := z]> (disk s); trace := trace s |}).

Definition stored (path : string) : M (option Zip.archive) :=
  fun s => (disk s !! path, s).

(** Leaving [with tempfile.TemporaryDirectory()]: the directory goes, with
    the files in it and below it. *)
Definition cleanup (temp_dir : string) : M unit :=
  fun s =>
    (tt, {| disk := filter (fun kv => inside temp_dir (fst kv) = false) (disk s);
            trace := trace s |}).

Definition initial : state := {| disk := ∅; trace := [] |}.

(** ** The module *)

(** [install_dependencies]: [None] when the client library is at hand,
    otherwise the text of the exception that escapes. *)
Definition install_dependencies (w : world) : M (option string) :=
  match library_state w with
  | Importable => mret None
  | Missing failure => emit PipInstall;; mret failure
  end.

(** The candidate list [find_folder] builds. *)
Definition possible_paths (folder_path : string) : list string :=
  (if Py.startswith folder_path "/" then [folder_path]
   else ["/" +:+ folder_path; folder_path])
  ++ ["./" +:+ folder_path;
      "../" +:+ folder_path;
      if negb (Py.startswith folder_path "/workspace")
      then "/workspace/" +:+ folder_path else folder_path].

(** The loop of [find_folder]: the first candidate that is a directory. *)
Fixpoint first_directory (w : world) (paths : list string)
  : M (option string) :=
  match paths with
  | [] => mret None
  | path :: rest =>
      emit (IsDir path);;
      if isdir w path then
        emit (RealPath path);;
        mret (Some (realpath w path))
      else first_directory w rest
  end.

Definition find_folder (w : world) (folder_path : string) : M (option string) :=
  first_directory w (possible_paths folder_path).

(** The loop of [create_zip] over [all_files]; the boolean is [false] when
    an exception interrupted it. *)
Fixpoint write_all (w : world) (p_folder_path : FS.path)
    (all_files : list FS.path) (zipf : Zip.archive) : Zip.archive * bool :=
  match all_files with
  | [] => (zipf, true)
  | file_path :: rest =>
      if FS.is_file (fs w) file_path
         || FS.is_dir (fs w) file_path
            && (match FS.iterdir (fs w) file_path with
                | [] => true
                | _ => false
                end)
      then
        match FS.relative_to file_path p_folder_path with
        | Some arcname =>
            match Zip.write (fs w) (can_read w file_path) file_path arcname
                            zipf with
            | Some zipf' => write_all w p_folder_path rest zipf'
            | None => (zipf, false)
            end
        | None => (zipf, false)
        end
      else write_all w p_folder_path rest zipf
  end.

(** [create_zip(folder_path, zip_path)].  Every exception raised in the body
    is caught and turned into [False]: the one of [ZipFile] when the archive
    file cannot be created, in which case nothing is written, and the one of
    [zipf.write], in which case the archive is closed with the members
    written so far. *)
Definition create_zip (w : world) (folder_path zip_path : string) : M bool :=
  let p_folder_path := Path folder_path in
  let all_files := FS.rglob (fs w) p_folder_path in
  let total_files := length (List.filter (FS.is_file (fs w)) all_files) in
  if (total_files =? 0)%nat then mret false
  else
    emit (ZipOpen zip_path);;
    if negb (can_open w zip_path) then mret false
    else
      let (zipf, finished) :=
        write_all w p_folder_path all_files
                  (Zip.open Zip.ZIP_DEFLATED (Some 6%nat)) in
      store zip_path zipf;;
      mret finished.

(** [upload_to_hf(zip_path, repo_id, token, HfApi, upload_file)] *)
Definition upload_to_hf (w : world) (zip_path repo_id token : string)
  : M (option string) :=
  let filename := os_path_basename zip_path in
  emit (RepoInfo repo_id token);;
  created ← (if repo_info w repo_id token then mret true
             else emit (CreateRepo repo_id token);;
                  mret (create_repo w repo_id token));
  if created : bool then
    let commit_message := "Upload automático: " +:+ filename in
    payload ← stored zip_path;
    emit (UploadFile filename repo_id token commit_message payload);;
    mret (upload_file w zip_path filename repo_id token commit_message)
  else mret None.

(** [validate_token(token)]: the verdict and the lines printed. *)
Definition validate_token (token : string) : bool * list string :=
  if negb (Py.truthy token) then (false, ["❌ Token não fornecido!"])
  else
    (true,
     (if negb (Py.startswith token "hf_")
      then ["⚠️  Token pode estar inválido (deveria começar com 'hf_')"]
      else [])
     ++ (if (Py.len token <? 20)%nat
         then ["⚠️  Token parece muito curto"] else [])).

(** [validate_repo(repo)]: the verdict and the lines printed. *)
Definition validate_repo (repo : string) : bool * list string :=
  if negb (Py.truthy repo) then (false, ["❌ Repositório não fornecido!"])
  else if negb (Py.contains "/" repo)
  then (false, ["❌ Repositório deve estar no formato 'usuario/nome'"])
  else
    match Py.split "/" repo with
    | [owner; name] =>
        if negb (Py.truthy owner) || negb (Py.truthy name)
        then (false, ["❌ Formato de repositório inválido!"])
        else (true, [])
    | _ => (false, ["❌ Formato de repositório inválido!"])
    end.

(** [generate_zip_name(folder_path, custom_name)] at the time [t]. *)
Definition generate_zip_name (t : datetime) (folder_path : string)
    (custom_name : option string) : string :=
  let timestamp := strftime t "%Y%m%d_%H%M%S" in
  match custom_name with
  | Some name =>
      if Py.truthy name && Py.truthy (Py.strip name) then
        let name' :=
          if Py.endswith (Py.lower name) ".zip" then Py.drop_last 4 name
          else name in
        name' +:+ "_" +:+ timestamp +:+ ".zip"
      else Path_name folder_path +:+ "_" +:+ timestamp +:+ ".zip"
  | None => Path_name folder_path +:+ "_" +:+ timestamp +:+ ".zip"
  end.

(** What [upload_folder] returns: the one-element tuple holds either the URL
    that [upload_file] returned or one of the failure messages; the
    constructor records which [return] statement produced it. *)
Inductive outcome :=
| Url (url : string)
| Failure (message : string).

(** The tuple handed back to the host. *)
Definition output (o : outcome) : list string :=
  match o with
  | Url url => [url]
  | Failure message => [message]
  end.

(** [HuggingFaceUploadNode.upload_folder] on its four string arguments; the
    trigger arguments are not used by the body. *)
Definition upload_folder (w : world)
    (hf_token repo_id folder_path zip_name : string) : M outcome :=
  failed ← install_dependencies w;
  match failed with
  | Some e => mret (Failure ("❌ Erro ao instalar dependências: " +:+ e))
  | None =>
      if negb (fst (validate_token hf_token))
      then mret (Failure "❌ Token inválido")
      else if negb (fst (validate_repo repo_id))
      then mret (Failure "❌ Repositório inválido")
      else
        found ← find_folder w folder_path;
        match found with
        | None => mret (Failure "❌ Pasta não encontrada")
        | Some folder_path =>
            if negb (Py.truthy folder_path)
            then mret (Failure "❌ Pasta não encontrada")
            else
              let zip_filename :=
                generate_zip_name (now w) folder_path (Some zip_name) in
              emit MkTemp;;
              match mkdtemp w with
              | inr e => mret (Failure ("❌ Erro durante o processo: " +:+ e))
              | inl temp_dir =>
                  let zip_path := os_path_join temp_dir zip_filename in
                  result ←
                    (zipped ← create_zip w folder_path zip_path;
                     if negb zipped then mret (Failure "❌ Falha ao criar ZIP")
                     else
                       upload_url ← upload_to_hf w zip_path repo_id hf_token;
                       match upload_url with
                       | Some url =>
                           if Py.truthy url then mret (Url url)
                           else mret (Failure "❌ Falha no upload")
                       | None => mret (Failure "❌ Falha no upload")
                       end);
                  cleanup temp_dir;;
                  mret result
              end
        end
  end.

(** ** The interface declared to the host *)

Inductive input_type := STRING | IMAGE.

(** A value the host passes: the text of a STRING widget or an image
    tensor. *)
Inductive value := Str (s : string) | Image.

(** [INPUT_TYPES()["required"]], in the order of declaration. *)
Definition INPUT_TYPES : list (string * input_type) :=
  [("hf_token", STRING); ("repo_id", STRING); ("folder_path", STRING);
   ("zip_name", STRING);
   ("trigger_image_1", IMAGE); ("trigger_image_2", IMAGE);
   ("trigger_image_3", IMAGE); ("trigger_image_4", IMAGE)].

Definition RETURN_TYPES : list input_type := [STRING].

(** The parameters in the signature of [upload_folder], after [self]. *)
Definition upload_folder_parameters : list string :=
  ["hf_token"; "repo_id"; "folder_path"; "zip_name";
   "trigger_image_1"; "trigger_image_2"; "trigger_image_3"].

Inductive exception := TypeError (message : string).

Fixpoint keyword (name : string) (kwargs : list (string * value))
  : option value :=
  match kwargs with
  | [] => None
  | (k, v) :: rest => if String.eqb k name then Some v else keyword name rest
  end.

Fixpoint take_arguments (parameters : list string)
    (kwargs : list (string * value)) : option (list value) :=
  match parameters with
  | [] => Some []
  | name :: rest =>
      match keyword name kwargs, take_arguments rest kwargs with
      | Some v, Some vs => Some (v :: vs)
      | _, _ => None
      end
  end.

(** How Python binds the keyword arguments of a call to the parameters of
    the function called: a keyword that names no parameter is a [TypeError],
    and so is a parameter left without an argument. *)
Definition bind_keywords (parameters : list string)
    (kwargs : list (string * value)) : exception + list value :=
  match List.find (fun kv => negb (existsb (String.eqb (fst kv)) parameters))
                  kwargs with
  | Some kv =>
      inl (TypeError ("upload_folder() got an unexpected keyword argument '"
                      +:+ fst kv +:+ "'"))
  | None =>
      match take_arguments parameters kwargs with
      | Some args => inr args
      | None =>
          inl (TypeError "upload_folder() missing required positional arguments")
      end
  end.

(** The keyword arguments the host builds from [INPUT_TYPES]: one per
    declared input. *)
Definition host_kwargs (hf_token repo_id folder_path zip_name : string)
  : list (string * value) :=
  [("hf_token", Str hf_token); ("repo_id", Str repo_id);
   ("folder_path", Str folder_path); ("zip_name", Str zip_name);
   ("trigger_image_1", Image); ("trigger_image_2", Image);
   ("trigger_image_3", Image); ("trigger_image_4", Image)].

(** The host's call of the method named by [FUNCTION], with the inputs as
    keyword arguments.  The host passes a
    string for every STRING input; a call with another value there is
    outside the interface and is reported as a [TypeError] as well. *)
Definition invoke (w : world) (kwargs : list (string * value))
  : M (exception + list string) :=
  match bind_keywords upload_folder_parameters kwargs with
  | inl e => mret (inl e)
  | inr [Str hf_token; Str repo_id; Str folder_path; Str zip_name; _; _; _] =>
      o ← upload_folder w hf_token repo_id folder_path zip_name;
      mret (inr (output o))
  | inr _ => mret (inl (TypeError "upload_folder() expects strings"))
  end.

(** ** Notions of the specification *)

(** The number of occurrences of a character. *)
Fixpoint occurrences (c : ascii) (s : string) : nat :=
  match s with
  | EmptyString => 0
  | String d s' => (if Ascii.eqb d c then 1 else 0) + occurrences c s'
  end.

(** A destination identifier the specification rejects: not exactly one
    separator, or nothing to its left, or nothing to its right. *)
Definition malformed (repo : string) : Prop :=
  occurrences "/" repo ≠ 1
  ∨ (∃ name, repo = "/" +:+ name)
  ∨ (∃ owner, repo = owner +:+ "/").

(** A string made of white space only (the empty string included). *)
Definition blank (s : string) : bool := Py.whitespace s.

(** The number a string of decimal digits denotes. *)
Definition digit_value (c : ascii) : option nat :=
  let n := nat_of_ascii c in
  if ((48 <=? n) && (n <=? 57))%nat then Some (n - 48) else None.

Fixpoint read_decimal (acc : nat) (s : string) : option nat :=
  match s with
  | EmptyString => Some acc
  | String c s' =>
      match digit_value c with
      | Some d => read_decimal (10 * acc + d) s'
      | None => None
      end
  end.

(** [s] is the number [n] written with exactly [width] decimal digits. *)
Definition decimal (width n : nat) (s : string) : Prop :=
  String.length s = width ∧ read_decimal 0 s = Some n.

(** [ts] is the time [t] written as YYYYMMDD_HHMMSS. *)
Definition timestamp (t : datetime) (ts : string) : Prop :=
  ∃ Y m d H M S,
    ts = Y +:+ m +:+ d +:+ "_" +:+ H +:+ M +:+ S
    ∧ decimal 4 (year t) Y ∧ decimal 2 (month t) m ∧ decimal 2 (day t) d
    ∧ decimal 2 (hour t) H ∧ decimal 2 (minute t) M
    ∧ decimal 2 (second t) S.

(** The candidate paths as the specification lists them. *)
Definition candidates (input : string) : list string :=
  if Py.startswith input "/" then
    if Py.startswith input "/workspace"
    then [input; "./" +:+ input; "../" +:+ input; input]
    else [input; "./" +:+ input; "../" +:+ input; "/workspace/" +:+ input]
  else
    ["/" +:+ input; input; "./" +:+ input; "../" +:+ input;
     "/workspace/" +:+ input].

(** The placeholder entry of a directory and the entry of a file, under a
    path relative to the source folder. *)
Definition file_entry (rel : FS.path) (data : string) : Zip.entry :=
  {| Zip.filename := Py.join "/" rel;
     Zip.is_dir := false; Zip.content := data |}.

Definition placeholder (rel : FS.path) : Zip.entry :=
  {| Zip.filename := Py.join "/" rel +:+ "/";
     Zip.is_dir := true; Zip.content := EmptyString |}.

(** The marker every failure message starts with. *)
Definition marker : string := "❌".

(** The entries of a folder below its root, as paths relative to it, in the
    order [Path.rglob] yields them. *)
Definition listing (root : FS.node) : list FS.path :=
  flat_map (FS.entries_at root) (FS.dirs_under root).

(** What a path of the listing contributes to the archive. *)
Definition entry_of (root : FS.node) (rel : FS.path) : list Zip.entry :=
  match FS.descend root rel with
  | Some (FS.File data) => [file_entry rel data]
  | Some (FS.Dir []) => [placeholder rel]
  | _ => []
  end.

(** The archive of a folder: opened for deflate at level 6, with what each
    path of the listing contributes, in the order of the listing. *)
Definition archive_of (root : FS.node) : Zip.archive :=
  {| Zip.method := Zip.ZIP_DEFLATED;
     Zip.compresslevel := Some 6%nat;
     Zip.entries := flat_map (entry_of root) (listing root) |}.

(** A run only adds to the trace. *)
Definition extends (s s' : state) (new : list event) : Prop :=
  trace s' = trace s ++ new.

(** A stretch of a run that adds no output file, creates no archive and
    does not call the hub. *)
Definition silent (s s' : state) : Prop :=
  (∀ p z, disk s' !! p = Some z → disk s !! p = Some z) ∧
  ∃ new, extends s s' new ∧
         Forall (λ e, is_archive e = false ∧ is_network e = false) new.

(** ** Sample inputs *)

(** The folder of the specification's scenario, at [/workspace/demo]: the
    files [a.txt] and [b/c.txt] and the empty directory [d]. *)
Definition demo_entries : list (string * FS.node) :=
  [("a.txt", FS.File "alpha");
   ("b", FS.Dir [("c.txt", FS.File "gamma")]);
   ("d", FS.Dir [])].

Definition demo_folder : FS.node := FS.Dir demo_entries.

(** A folder [/workspace/hollow] that holds directories but no file, and an
    empty folder [/workspace/void]. *)
Definition demo_tree : FS.node :=
  FS.Dir [("workspace",
           FS.Dir [("demo", demo_folder);
                   ("hollow", FS.Dir [("x", FS.Dir []);
                                      ("y", FS.Dir [("z", FS.Dir [])])]);
                   ("void", FS.Dir [])])].

(** The process runs in [/workspace]. *)
Definition demo_view : FS.view :=
  {| FS.tree := demo_tree; FS.cwd := ["workspace"] |}.

(** The directories of the sample worlds in which a file can be created:
    [/tmp] and the temporary directory in it.  A file can be created at an
    absolute path when the path leads, through directories that exist, to
    one of them. *)
Definition output_directories : list (list string) :=
  [["tmp"]; ["tmp"; "tmpk3v9"]].

Definition same_place (d place : list string) : bool :=
  String.eqb (Py.join "/" d) (Py.join "/" place).

Fixpoint reach (place parts : list string) : option (list string) :=
  match parts with
  | [] => Some place
  | c :: parts' =>
      let next := if String.eqb c ".." then removelast place
                  else place ++ [c] in
      if existsb (same_place next) ([] :: output_directories)
      then reach next parts' else None
  end.

Definition creatable (p : string) : bool :=
  Py.startswith p "/"
  && match components p with
     | [] => false
     | parts =>
         match reach [] (removelast parts) with
         | Some place => existsb (same_place place) output_directories
         | None => false
         end
     end.

(** The no-break space U+00A0 and the ideographic space U+3000, in
    UTF-8. *)
Definition no_break_space : string :=
  String "194" (String "160" EmptyString).

Definition ideographic_space : string :=
  String "227" (String "128" (String "128" EmptyString)).

Definition demo_time : datetime :=
  {| year := 2024; month := 3; day := 7; hour := 9; minute := 5; second := 59 |}.

(** A world in which the client library is installed, the three folders
    exist and can be read, files can be created in the temporary directory
    and in [/tmp], and the hub accepts every call. *)
Definition demo_world : world :=
  {| library_state := Importable;
     now := demo_time;
     isdir := fun p => String.eqb p "/workspace/demo"
                       || String.eqb p "/workspace/hollow"
                       || String.eqb p "/workspace/void";
     realpath := fun p => p;
     fs := demo_view;
     can_read := fun _ => true;
     can_open := creatable;
     mkdtemp := inl "/tmp/tmpk3v9";
     repo_info := fun _ _ => false;
     create_repo := fun _ _ => true;
     upload_file := fun _ path_in_repo repo_id _ _ =>
       Some ("https://huggingface.co/" +:+ repo_id +:+ "/blob/main/"
             +:+ path_in_repo) |}.

(** The same world without the client library: one that [pip] can install,
    and one for which the installation fails. *)
Definition fresh_world : world :=
  {| library_state := Missing None; now := now demo_world;
     isdir := isdir demo_world; realpath := realpath demo_world;
     fs := fs demo_world; can_read := can_read demo_world;
     can_open := can_open demo_world; mkdtemp := mkdtemp demo_world;
     repo_info := repo_info demo_world; create_repo := create_repo demo_world;
     upload_file := upload_file demo_world |}.

Definition broken_world : world :=
  {| library_state := Missing (Some "pip exited with status 1");
     now := now demo_world;
     isdir := isdir demo_world; realpath := realpath demo_world;
     fs := fs demo_world; can_read := can_read demo_world;
     can_open := can_open demo_world; mkdtemp := mkdtemp demo_world;
     repo_info := repo_info demo_world; create_repo := create_repo demo_world;
     upload_file := upload_file demo_world |}.

(** The same world with a hub that knows the destination but refuses the
    upload. *)
Definition refusing_world : world :=
  {| library_state := Importable; now := now demo_world;
     isdir := isdir demo_world; realpath := realpath demo_world;
     fs := fs demo_world; can_read := can_read demo_world;
     can_open := can_open demo_world; mkdtemp := mkdtemp demo_world;
     repo_info := fun _ _ => true; create_repo := fun _ _ => false;
     upload_file := fun _ _ _ _ _ => None |}.

(** ** Notions used for the further properties *)

(** The same world with the client library at hand. *)
Definition installed (w : world) : world :=
  {| library_state := Importable; now := now w; isdir := isdir w;
     realpath := realpath w; fs := fs w; can_read := can_read w;
     can_open := can_open w; mkdtemp := mkdtemp w;
     repo_info := repo_info w; create_repo := create_repo w;
     upload_file := upload_file w |}.

(** What the [with] block of [upload_folder] does from the state [s]. *)
Definition with_block (w : world) (hf_token repo_id real temp_dir zip_name : string)
    (s : state) : outcome * state :=
  let zip_path :=
    os_path_join temp_dir (generate_zip_name (now w) real (Some zip_name)) in
  let cz := create_zip w real zip_path s in
  if cz.1 then
    let up := upload_to_hf w zip_path repo_id hf_token cz.2 in
    (match up.1 with
     | Some url =>
         if Py.truthy url then Url url else Failure "❌ Falha no upload"
     | None => Failure "❌ Falha no upload"
     end, (cleanup temp_dir up.2).2)
  else (Failure "❌ Falha ao criar ZIP", (cleanup temp_dir cz.2).2).


(** A byte that is white space or part of a code point above U+007F. *)
Definition spacey (c : ascii) : bool :=
  Py.space1 c || (128 <=? nat_of_ascii c)%nat.

Fixpoint all_spacey (s : string) : bool :=
  match s with
  | EmptyString => true
  | String c s' => spacey c && all_spacey s'
  end.

(** * Properties *)

Local Close Scope char_scope.

(** ** Strings *)

Section strings.
Implicit Types (s t : string) (c : ascii).

Lemma app_cons c s t : String c s +:+ t = String c (s +:+ t).
Proof. reflexivity. Qed.

Lemma app_empty_l t : "" +:+ t = t.
Proof. reflexivity. Qed.

Lemma app_empty_r s : s +:+ "" = s.
Proof. induction s as [|c s IH]; [done|]. by rewrite app_cons, IH. Qed.

Lemma app_assoc' s t u : (s +:+ t) +:+ u = s +:+ t +:+ u.
Proof. induction s as [|c s IH]; [done|]. by rewrite !app_cons, IH. Qed.

Lemma length_app s t :
  String.length (s +:+ t) = String.length s + String.length t.
Proof. induction s as [|c s IH]; [done|]. rewrite app_cons. simpl. by rewrite IH. Qed.

Lemma truthy_true s : Py.truthy s = true ↔ s ≠ "".
Proof. by destruct s. Qed.

Lemma truthy_false s : Py.truthy s = false ↔ s = "".
Proof. by destruct s. Qed.

Lemma startswith_app s p : Py.startswith (p +:+ s) p = true.
Proof.
  induction p as [|c p IH]; [done|].
  rewrite app_cons. simpl. rewrite Ascii.eqb_refl. exact IH.
Qed.

Lemma startswith_inv s p : Py.startswith s p = true → ∃ r, s = p +:+ r.
Proof.
  revert s. induction p as [|c p IH]; intros s H; [by exists s|].
  destruct s as [|d s]; [done|]. simpl in H.
  destruct (Ascii.eqb_spec c d) as [->|]; [|done].
  destruct (IH _ H) as [r ->]. by exists r.
Qed.

Lemma take_drop n s : Py.take n s +:+ Py.drop n s = s.
Proof.
  revert s. induction n as [|n IH]; intros [|c s]; try done.
  simpl. by rewrite app_cons, IH.
Qed.

Lemma drop_app s t : Py.drop (String.length s) (s +:+ t) = t.
Proof. induction s as [|c s IH]; [by destruct t|]. by rewrite app_cons. Qed.

Lemma take_app s t : Py.take (String.length s) (s +:+ t) = s.
Proof.
  induction s as [|c s IH]; [by destruct t|].
  rewrite app_cons. simpl. by rewrite IH.
Qed.

Lemma drop_last_app s t : Py.drop_last (String.length t) (s +:+ t) = s.
Proof.
  unfold Py.drop_last. rewrite length_app.
  replace (String.length s + String.length t - String.length t)
    with (String.length s) by lia.
  apply take_app.
Qed.

Lemma endswith_app s t : Py.endswith (s +:+ t) t = true.
Proof.
  unfold Py.endswith. rewrite length_app.
  replace (String.length s + String.length t - String.length t)
    with (String.length s) by lia.
  rewrite drop_app, String.eqb_refl.
  apply andb_true_iff. split; [|done]. apply Nat.leb_le. lia.
Qed.

Lemma endswith_inv s t : Py.endswith s t = true → ∃ r, s = r +:+ t.
Proof.
  unfold Py.endswith. intros [_ H]%andb_true_iff.
  apply String.eqb_eq in H.
  exists (Py.take (String.length s - String.length t) s).
  transitivity (Py.take (String.length s - String.length t) s
                +:+ Py.drop (String.length s - String.length t) s).
  - symmetry. apply take_drop.
  - by rewrite H.
Qed.

Lemma lower_app s t : Py.lower (s +:+ t) = Py.lower s +:+ Py.lower t.
Proof. induction s as [|c s IH]; [done|]. rewrite app_cons. simpl. by rewrite IH. Qed.

Lemma length_lower s : String.length (Py.lower s) = String.length s.
Proof. induction s as [|c s IH]; [done|]. simpl. by rewrite IH. Qed.

(** What is left of [rstrip] is empty exactly when the string is white
    space. *)
Lemma rstrip_truthy s : Py.truthy (Py.rstrip s) = negb (Py.whitespace s).
Proof.
  destruct s as [|c s]; [done|]. cbn [Py.rstrip].
  by destruct (Py.whitespace (String c s)).
Qed.

(** Removing the white space at the start does not change whether the
    string is white space. *)
Lemma whitespace_lstrip s : Py.whitespace (Py.lstrip s) = Py.whitespace s.
Proof.
  remember (String.length s) as n eqn:Hn. revert s Hn.
  induction n as [n IH] using lt_wf_ind. intros s ->.
  destruct s as [|c1 s1]; [done|]. cbn [Py.lstrip].
  destruct (Py.space1 c1) eqn:H1.
  { cbn [Py.whitespace]. rewrite H1. apply (IH (String.length s1)); [|done].
    simpl. lia. }
  destruct s1 as [|c2 s2]; [done|].
  destruct (Py.space2 c1 c2) eqn:H2.
  { cbn [Py.whitespace]. rewrite H1, H2.
    apply (IH (String.length s2)); [|done]. simpl. lia. }
  destruct s2 as [|c3 s3]; [done|].
  destruct (Py.space3 c1 c2 c3) eqn:H3; [|done].
  cbn [Py.whitespace]. rewrite H1, H2, H3.
  apply (IH (String.length s3)); [|done]. simpl. lia.
Qed.

(** [s.strip()] is falsy exactly when [s] is made of white space. *)
Lemma strip_truthy s : Py.truthy (Py.strip s) = negb (blank s).
Proof.
  unfold Py.strip, blank. by rewrite rstrip_truthy, whitespace_lstrip.
Qed.

Lemma space2_spacey c1 c2 :
  Py.space2 c1 c2 = true → spacey c1 = true ∧ spacey c2 = true.
Proof.
  unfold Py.space2, spacey. intros [H1 H2]%andb_true_iff.
  apply Nat.eqb_eq in H1. rewrite H1.
  apply orb_true_iff in H2 as [H2|H2]; apply Nat.eqb_eq in H2; rewrite H2;
    split; apply orb_true_r.
Qed.

Lemma space3_spacey c1 c2 c3 :
  Py.space3 c1 c2 c3 = true →
  spacey c1 = true ∧ spacey c2 = true ∧ spacey c3 = true.
Proof.
  unfold Py.space3, spacey. intros H.
  assert (128 <= nat_of_ascii c1 ∧ 128 <= nat_of_ascii c2
          ∧ 128 <= nat_of_ascii c3) as (G1 & G2 & G3).
  { repeat match type of H with
           | (_ || _) = true => apply orb_true_iff in H as [H|H]
           end;
    repeat match goal with
           | G : (_ && _) = true |- _ => apply andb_true_iff in G as [? ?]
           | G : (_ || _) = true |- _ => apply orb_true_iff in G as [?|?]
           | G : (_ =? _) = true |- _ => apply Nat.eqb_eq in G
           | G : (_ <=? _) = true |- _ => apply Nat.leb_le in G
           end; lia. }
  apply Nat.leb_le in G1, G2, G3. rewrite G1, G2, G3.
  repeat split; apply orb_true_r.
Qed.

(** White space is made of bytes that are white space themselves or belong
    to a code point beyond ASCII. *)
Lemma whitespace_spacey s : Py.whitespace s = true → all_spacey s = true.
Proof.
  remember (String.length s) as n eqn:Hn. revert s Hn.
  induction n as [n IH] using lt_wf_ind. intros s ->.
  destruct s as [|c1 s1]; [done|]. cbn [Py.whitespace all_spacey].
  destruct (Py.space1 c1) eqn:H1.
  { intros H. unfold spacey. rewrite H1. cbn [orb andb].
    apply (IH (String.length s1)); [|done..]. simpl. lia. }
  destruct s1 as [|c2 s2]; [done|].
  destruct (Py.space2 c1 c2) eqn:H2.
  { intros H. destruct (space2_spacey _ _ H2) as [G1 G2].
    cbn [all_spacey]. rewrite G1, G2. cbn [andb].
    apply (IH (String.length s2)); [|done..]. simpl. lia. }
  destruct s2 as [|c3 s3]; [done|].
  destruct (Py.space3 c1 c2 c3) eqn:H3; [|done].
  intros H. destruct (space3_spacey _ _ _ H3) as (G1 & G2 & G3).
  cbn [all_spacey]. rewrite G1, G2, G3. cbn [andb].
  apply (IH (String.length s3)); [|done..]. simpl. lia.
Qed.

Lemma all_spacey_app s t : all_spacey (s +:+ t) = all_spacey s && all_spacey t.
Proof.
  induction s as [|c s IH]; [done|]. rewrite app_cons. simpl.
  by rewrite IH, andb_assoc.
Qed.

Lemma lower_char_dot c : Py.lower_char c = "."%char → c = "."%char.
Proof.
  destruct c as [[] [] [] [] [] [] [] []]; intros H;
    first [reflexivity | vm_compute in H; discriminate H].
Qed.

(** A string that ends with the extension ['.zip'], in any letter case, is
    not white space. *)
Lemma blank_extension stem ext :
  Py.lower ext = ".zip" → blank (stem +:+ ext) = false.
Proof.
  intros Hext. unfold blank.
  destruct (Py.whitespace (stem +:+ ext)) eqn:Hw; [|done].
  apply whitespace_spacey in Hw. rewrite all_spacey_app in Hw.
  apply andb_true_iff in Hw as [_ Hw].
  destruct ext as [|c ext]; [done|]. cbn [Py.lower] in Hext.
  injection Hext as Hc _. apply lower_char_dot in Hc. subst c. done.
Qed.

Lemma contains_occurrences c s :
  Py.contains c s = false ↔ occurrences c s = 0.
Proof.
  induction s as [|d s IH]; [done|]. simpl.
  rewrite (Ascii.eqb_sym c d).
  destruct (Ascii.eqb d c); simpl; [done|]. apply IH.
Qed.

Lemma split_nonempty c s : Py.split c s ≠ [].
Proof.
  destruct s as [|d s]; [done|]. simpl.
  destruct (Ascii.eqb d c); [done|]. by destruct (Py.split c s).
Qed.

Lemma length_split c s : length (Py.split c s) = S (occurrences c s).
Proof.
  induction s as [|d s IH]; [done|]. simpl.
  destruct (Ascii.eqb d c); simpl; [by rewrite IH|].
  destruct (Py.split c s); [done|]. done.
Qed.

Lemma split_no_sep c s : Py.contains c s = false → Py.split c s = [s].
Proof.
  induction s as [|d s IH]; [done|]. simpl.
  rewrite (Ascii.eqb_sym c d).
  destruct (Ascii.eqb d c); simpl; [done|].
  intros H. by rewrite IH.
Qed.

Lemma split_app c s t :
  Py.split c (s +:+ String c t) = Py.split c s ++ Py.split c t.
Proof.
  induction s as [|d s IH].
  - rewrite app_empty_l. simpl. by rewrite Ascii.eqb_refl.
  - rewrite app_cons. simpl. rewrite IH.
    destruct (Ascii.eqb d c); [done|].
    pose proof (split_nonempty c s). by destruct (Py.split c s).
Qed.
End strings.

Lemma digit_value_digit n : digit_value (digit n) = Some (n mod 10).
Proof.
  unfold digit_value, digit.
  assert (n mod 10 < 10) as Hlt by (apply Nat.mod_upper_bound; lia).
  generalize dependent (n mod 10). intros k Hk.
  do 10 (destruct k as [|k]; [reflexivity|]). lia.
Qed.

Lemma read_pad2 acc n :
  n < 100 → read_decimal acc (pad2 n) = Some (100 * acc + n).
Proof.
  intros Hn. unfold pad2. cbn [read_decimal].
  rewrite !digit_value_digit. f_equal.
  pose proof (Nat.div_mod_eq n 10) as H1.
  assert (n / 10 < 10) as H2 by (apply Nat.Div0.div_lt_upper_bound; lia).
  rewrite (Nat.mod_small (n / 10) 10) by exact H2.
  lia.
Qed.

Lemma decimal_pad2 n : n < 100 → decimal 2 n (pad2 n).
Proof.
  intros Hn. split; [reflexivity|]. by rewrite read_pad2.
Qed.

Lemma decimal_pad4 n : n / 100 < 100 → decimal 4 n (pad4 n).
Proof.
  intros Hn. split; [reflexivity|]. unfold pad4, pad2. cbn [read_decimal].
  rewrite !digit_value_digit. f_equal.
  pose proof (Nat.div_mod_eq n 10) as H1.
  pose proof (Nat.div_mod_eq (n / 10) 10) as H2.
  pose proof (Nat.div_mod_eq (n / 10 / 10) 10) as H3.
  replace (n / 10 / 10) with (n / 100) in *
    by (rewrite Nat.Div0.div_div; reflexivity).
  replace (n / 100 / 10) with (n / 1000) in *
    by (rewrite Nat.Div0.div_div; reflexivity).
  assert (n / 1000 < 10) as H4.
  { replace (n / 1000) with (n / 100 / 10)
      by (rewrite Nat.Div0.div_div; reflexivity).
    apply Nat.Div0.div_lt_upper_bound. lia. }
  rewrite (Nat.mod_small (n / 1000) 10) by exact H4.
  lia.
Qed.

Lemma four_digit_year t : valid_datetime t → year t / 100 < 100.
Proof.
  intros [[_ H] _]. apply Nat.Div0.div_lt_upper_bound.
  eapply Nat.le_lt_trans; [exact H|]. vm_compute. reflexivity.
Qed.

(** From the year 1000 on the year takes its four digits. *)
Lemma unpadded_pad4 n : 1000 <= n → unpadded n = pad4 n.
Proof.
  intros Hn. unfold unpadded.
  destruct (Nat.ltb_spec n 10); [lia|].
  destruct (Nat.ltb_spec n 100); [lia|].
  destruct (Nat.ltb_spec n 1000); [lia|]. done.
Qed.

Lemma strftime_pad4 t :
  1000 <= year t →
  strftime t "%Y%m%d_%H%M%S"
  = pad4 (year t) +:+ pad2 (month t) +:+ pad2 (day t) +:+ "_"
    +:+ pad2 (hour t) +:+ pad2 (minute t) +:+ pad2 (second t).
Proof.
  intros Hy.
  change (strftime t "%Y%m%d_%H%M%S")
    with (unpadded (year t) +:+ pad2 (month t) +:+ pad2 (day t) +:+ "_"
          +:+ pad2 (hour t) +:+ pad2 (minute t) +:+ pad2 (second t)).
  by rewrite unpadded_pad4.
Qed.


Lemma strftime_timestamp t :
  valid_datetime t → 1000 <= year t →
  timestamp t (strftime t "%Y%m%d_%H%M%S").
Proof.
  intros Hv Hy0. pose proof (four_digit_year t Hv) as Hy.
  destruct Hv as (_ & Hm & Hd & HH & HM & HS).
  exists (pad4 (year t)), (pad2 (month t)), (pad2 (day t)),
         (pad2 (hour t)), (pad2 (minute t)), (pad2 (second t)).
  split; [by apply strftime_pad4|].
  split; [by apply decimal_pad4|].
  repeat split; try reflexivity; apply read_pad2; lia.
Qed.

(** ** Paths *)

Lemma last_app_singleton {A} (l : list A) (x d : A) : List.last (l ++ [x]) d = x.
Proof. apply List.last_last. Qed.

Lemma components_child parent name :
  name ≠ "" → name ≠ "." → Py.contains "/" name = false →
  components (parent +:+ "/" +:+ name) = components parent ++ [name].
Proof.
  intros H1 H2 H3. unfold components.
  change (parent +:+ "/" +:+ name) with (parent +:+ String "/" name).
  rewrite split_app, List.filter_app, (split_no_sep _ _ H3). simpl.
  apply truthy_true in H1. rewrite H1.
  destruct (String.eqb_spec name "."); [done|]. done.
Qed.

Lemma Path_name_child parent name :
  name ≠ "" → name ≠ "." → Py.contains "/" name = false →
  Path_name (parent +:+ "/" +:+ name) = name.
Proof.
  intros. unfold Path_name. rewrite components_child by done.
  apply last_app_singleton.
Qed.

(** ** [generate_zip_name] *)

Lemma blank_truthy_strip name :
  Py.truthy name && Py.truthy (Py.strip name) = negb (blank name).
Proof.
  rewrite strip_truthy. destruct name; [done|]. done.
Qed.

Lemma generate_zip_name_absent t folder name :
  blank name = true →
  generate_zip_name t folder (Some name) = generate_zip_name t folder None.
Proof.
  intros Hb. unfold generate_zip_name. by rewrite blank_truthy_strip, Hb.
Qed.

Lemma generate_zip_name_fallback t folder name :
  blank name = true →
  generate_zip_name t folder (Some name)
  = Path_name folder +:+ "_" +:+ strftime t "%Y%m%d_%H%M%S" +:+ ".zip".
Proof.
  intros Hb. unfold generate_zip_name. by rewrite blank_truthy_strip, Hb.
Qed.

Lemma generate_zip_name_stem t folder stem ext :
  Py.lower ext = ".zip" →
  generate_zip_name t folder (Some (stem +:+ ext))
  = stem +:+ "_" +:+ strftime t "%Y%m%d_%H%M%S" +:+ ".zip".
Proof.
  intros Hext. unfold generate_zip_name.
  rewrite blank_truthy_strip, (blank_extension _ _ Hext). cbn [negb].
  rewrite lower_app, Hext, endswith_app.
  assert (String.length ext = 4) as Hlen
    by (rewrite <- length_lower, Hext; reflexivity).
  rewrite <- Hlen, drop_last_app. done.
Qed.

Lemma generate_zip_name_plain t folder name :
  blank name = false → Py.endswith (Py.lower name) ".zip" = false →
  generate_zip_name t folder (Some name)
  = name +:+ "_" +:+ strftime t "%Y%m%d_%H%M%S" +:+ ".zip".
Proof.
  intros Hb He. unfold generate_zip_name.
  by rewrite blank_truthy_strip, Hb, He.
Qed.

(** ** [validate_repo] *)

Lemma validate_repo_malformed repo : malformed repo → (validate_repo repo).1 = false.
Proof.
  intros Hm. unfold validate_repo.
  destruct (Py.truthy repo) eqn:Ht; [simpl|done].
  destruct (Py.contains "/" repo) eqn:Hc; [simpl|done].
  pose proof (length_split "/" repo) as Hlen.
  destruct (Py.split "/" repo) as [|owner [|name [|]]] eqn:Hs; try done.
  simpl in Hlen.
  destruct Hm as [Hn | [[name' ->] | [owner' ->]]].
  - lia.
  - change ("/" +:+ name') with ("" +:+ String "/" name') in Hs.
    rewrite split_app in Hs. simpl in Hs. by inversion Hs.
  - change (owner' +:+ "/") with (owner' +:+ String "/" "") in Hs.
    rewrite split_app in Hs. simpl in Hs.
    assert (List.last (Py.split "/" owner' ++ [""]) "x" = List.last [owner; name] "x")
      as Hl by (by rewrite Hs).
    rewrite last_app_singleton in Hl. simpl in Hl. subst name.
    by rewrite orb_true_r.
Qed.

Lemma validate_repo_accepts owner name :
  owner ≠ "" → name ≠ "" →
  Py.contains "/" owner = false → Py.contains "/" name = false →
  validate_repo (owner +:+ "/" +:+ name) = (true, []).
Proof.
  intros Ho Hn Hco Hcn. unfold validate_repo.
  change (owner +:+ "/" +:+ name) with (owner +:+ String "/" name).
  rewrite split_app, (split_no_sep _ _ Hco), (split_no_sep _ _ Hcn). simpl.
  apply truthy_true in Ho, Hn. rewrite Ho, Hn. simpl.
  assert (Py.truthy (owner +:+ String "/" name) = true) as ->
    by (destruct owner; done).
  assert (Py.contains "/" (owner +:+ String "/" name) = true) as ->; [|done].
  clear. induction owner as [|c o IH]; [done|].
  rewrite app_cons. simpl. rewrite IH. apply orb_true_r.
Qed.

Lemma join_cons_first c sep p ps :
  Py.join sep (String c p :: ps) = String c (Py.join sep (p :: ps)).
Proof. destruct ps; done. Qed.

(** Joining the parts of a split gives the string back. *)
Lemma join_split c s : Py.join (String c "") (Py.split c s) = s.
Proof.
  induction s as [|d s IH]; [done|]. simpl.
  destruct (Ascii.eqb_spec d c) as [->|Hd].
  - pose proof (split_nonempty c s) as Hne.
    destruct (Py.split c s) as [|p ps] eqn:Hs; [done|].
    change (Py.join (String c "") ("" :: p :: ps))
      with (String c (Py.join (String c "") (p :: ps))).
    by rewrite IH.
  - destruct (Py.split c s) as [|p ps] eqn:Hs.
    + by destruct (split_nonempty c s).
    + by rewrite join_cons_first, IH.
Qed.

(** No part of a split holds the separator. *)
Lemma split_parts c s : Forall (λ p, Py.contains c p = false) (Py.split c s).
Proof.
  induction s as [|d s IH]; [by repeat constructor|]. simpl.
  destruct (Ascii.eqb_spec d c) as [->|Hd].
  - by constructor.
  - destruct (Py.split c s) as [|p ps]; [|inversion IH; subst].
    + repeat constructor. simpl.
      destruct (Ascii.eqb_spec c d); [congruence|done].
    + constructor; [|done]. simpl.
      destruct (Ascii.eqb_spec c d); [congruence|done].
Qed.

Lemma validate_repo_inv repo :
  (validate_repo repo).1 = true →
  ∃ owner name, repo = owner +:+ "/" +:+ name ∧ owner ≠ "" ∧ name ≠ "" ∧
    Py.contains "/" owner = false ∧ Py.contains "/" name = false.
Proof.
  unfold validate_repo.
  destruct (Py.truthy repo); [simpl|done].
  destruct (Py.contains "/" repo); [simpl|done].
  pose proof (join_split "/" repo) as Hj.
  pose proof (split_parts "/" repo) as Hp.
  destruct (Py.split "/" repo) as [|owner [|name [|]]] eqn:Hs; try done.
  destruct (Py.truthy owner) eqn:Ho; [|done].
  destruct (Py.truthy name) eqn:Hn; [|done]. intros _.
  exists owner, name. apply truthy_true in Ho, Hn.
  inversion Hp as [|?? Hco Hp']; subst. inversion Hp' as [|?? Hcn _]; subst.
  done.
Qed.

(** ** Running the monad *)

Lemma run_bind {A B} (m : M A) (k : A → M B) s :
  (m ≫= k) s = k (m s).1 (m s).2.
Proof. unfold mbind, M_bind. by destruct (m s). Qed.

Lemma run_ret {A} (a : A) s : mret (M := M) a s = (a, s).
Proof. reflexivity. Qed.

Lemma run_emit e s :
  emit e s = (tt, {| disk := disk s; trace := trace s ++ [e] |}).
Proof. reflexivity. Qed.

Lemma run_stored path s : stored path s = (disk s !! path, s).
Proof. reflexivity. Qed.

Lemma run_store path z s :
  store path z s = (tt, {| disk := <[path := z]> (disk s); trace := trace s |}).
Proof. reflexivity. Qed.

Ltac run :=
  repeat (rewrite ?run_bind, ?run_ret, ?run_emit, ?run_stored, ?run_store;
          cbn [fst snd disk trace]).


Lemma install_dependencies_run w s :
  disk (install_dependencies w s).2 = disk s ∧
  match library_state w with
  | Importable =>
      (install_dependencies w s).1 = None ∧
      trace (install_dependencies w s).2 = trace s
  | Missing failure =>
      (install_dependencies w s).1 = failure ∧
      trace (install_dependencies w s).2 = trace s ++ [PipInstall]
  end.
Proof. unfold install_dependencies. by destruct (library_state w). Qed.

(** ** The two validators in [upload_folder] *)


Lemma upload_folder_early w hf_token repo_id folder_path zip_name s :
  (validate_token hf_token).1 = false ∨ (validate_repo repo_id).1 = false →
  let r := upload_folder w hf_token repo_id folder_path zip_name s in
  disk r.2 = disk s ∧
  ∃ message, r.1 = Failure message ∧ Py.startswith message marker = true ∧
    (trace r.2 = trace s ∨ trace r.2 = trace s ++ [PipInstall]).
Proof.
  intros Hv. unfold upload_folder. run.
  destruct (install_dependencies_run w s) as [Hd Hi].
  destruct (install_dependencies w s) as [failed s1]. cbn [fst snd] in *.
  assert (trace s1 = trace s ∨ trace s1 = trace s ++ [PipInstall]) as Ht
    by (destruct (library_state w); [left|right]; apply Hi).
  destruct failed as [e|].
  { run. split; [done|]. eexists. split; [done|]. split; [|done]. done. }
  destruct (validate_token hf_token).1 eqn:Htok; cbn [negb].
  - destruct Hv as [?|Hr]; [done|]. rewrite Hr. cbn [negb]. run.
    split; [done|]. eexists. by repeat split.
  - run. split; [done|]. eexists. by repeat split.
Qed.

Lemma validate_token_verdict token :
  (validate_token token).1 = Py.truthy token.
Proof. unfold validate_token. by destruct (Py.truthy token). Qed.

(** Every way [upload_folder] returns. *)
Lemma upload_folder_returns w hf_token repo_id folder_path zip_name s :
  let o := (upload_folder w hf_token repo_id folder_path zip_name s).1 in
  (∃ e, library_state w = Missing (Some e) ∧
        o = Failure ("❌ Erro ao instalar dependências: " +:+ e))
  ∨ (hf_token = "" ∧ o = Failure "❌ Token inválido")
  ∨ ((validate_repo repo_id).1 = false ∧ o = Failure "❌ Repositório inválido")
  ∨ o = Failure "❌ Pasta não encontrada"
  ∨ (∃ e, mkdtemp w = inr e ∧ o = Failure ("❌ Erro durante o processo: " +:+ e))
  ∨ o = Failure "❌ Falha ao criar ZIP"
  ∨ o = Failure "❌ Falha no upload"
  ∨ (∃ url, url ≠ "" ∧ o = Url url).
Proof.
  unfold upload_folder. run.
  destruct (install_dependencies_run w s) as [_ Hi].
  destruct (install_dependencies w s) as [failed s1]. cbn [fst snd] in *.
  destruct failed as [e|].
  { left. exists e. split; [|done].
    destruct (library_state w) as [|f]; destruct Hi as [Hi _]; [done|].
    by rewrite Hi. }
  right. rewrite validate_token_verdict.
  destruct (Py.truthy hf_token) eqn:Htok; cbn [negb]; run.
  2: { left. by apply truthy_false in Htok. }
  right. destruct (validate_repo repo_id).1 eqn:Hrepo; cbn [negb]; run.
  2: { by left. }
  right. destruct (find_folder w folder_path s1) as [[found|] s2]; cbn [fst snd].
  2: { by left. }
  destruct (Py.truthy found); cbn [negb]; run.
  2: { by left. }
  right.
  destruct (mkdtemp w) as [temp_dir|e]; run.
  2: { left. by exists e. }
  right.
  destruct (create_zip _ _ _ _) as [[] s3]; cbn [fst snd negb]; run.
  2: { by left. }
  right.
  destruct (upload_to_hf _ _ _ _ _) as [[url|] s4]; cbn [fst snd]; run.
  2: { by left. }
  destruct (Py.truthy url) eqn:Hurl; run.
  - right. exists url. by apply truthy_true in Hurl.
  - by left.
Qed.

(** A failure message always bears the marker. *)
Lemma upload_folder_failure_marked w hf_token repo_id folder_path zip_name s m :
  (upload_folder w hf_token repo_id folder_path zip_name s).1 = Failure m →
  Py.startswith m marker = true.
Proof.
  intros H.
  destruct (upload_folder_returns w hf_token repo_id folder_path zip_name s)
    as [(e & _ & E)|[[_ E]|[[_ E]|[E|[(e & _ & E)|[E|[E|(u & _ & E)]]]]]]];
    rewrite H in E; inversion E; done.
Qed.

(** ** [find_folder] *)

Lemma possible_paths_candidates input : possible_paths input = candidates input.
Proof.
  unfold possible_paths, candidates.
  destruct (Py.startswith input "/") eqn:H1;
    destruct (Py.startswith input "/workspace") eqn:H2; try done.
  apply startswith_inv in H2 as [r ->]. done.
Qed.

Lemma first_directory_spec w paths s :
  let r := first_directory w paths s in
  disk r.2 = disk s ∧
  match r.1 with
  | Some real =>
      ∃ before c after,
        paths = before ++ c :: after ∧
        Forall (λ x, isdir w x = false) before ∧
        isdir w c = true ∧ real = realpath w c ∧
        trace r.2 = trace s ++ map IsDir (before ++ [c]) ++ [RealPath c]
  | None =>
      Forall (λ x, isdir w x = false) paths ∧
      trace r.2 = trace s ++ map IsDir paths
  end.
Proof.
  revert s. induction paths as [|path rest IH]; intros s; cbn zeta.
  - simpl. split; [done|]. split; [constructor|]. by rewrite app_nil_r.
  - cbn [first_directory]. run.
    destruct (isdir w path) eqn:Hd.
    + run. split; [done|].
      exists [], path, rest. repeat split; try done.
      by rewrite <- app_assoc.
    + specialize (IH {| disk := disk s; trace := trace s ++ [IsDir path] |}).
      cbn zeta in IH. destruct IH as [IHd IHr]. split; [done|].
      destruct (first_directory w rest _) as [[real|] s']; cbn [fst snd] in *.
      * destruct IHr as (before & c & after & -> & Hb & Hc & -> & Ht).
        exists (path :: before), c, after. repeat split; try done.
        -- by constructor.
        -- rewrite Ht. cbn [trace]. by rewrite <- app_assoc.
      * destruct IHr as [Hall Ht]. split; [by constructor|].
        rewrite Ht. cbn [trace]. by rewrite <- app_assoc.
Qed.

(** ** [upload_to_hf] *)

Lemma snoc_snoc {A} (l : list A) (x : A) (k : list A) :
  (l ++ [x]) ++ k = l ++ x :: k.
Proof. by rewrite <- List.app_assoc. Qed.

Lemma upload_to_hf_spec w zip_path repo_id token s :
  let r := upload_to_hf w zip_path repo_id token s in
  let filename := os_path_basename zip_path in
  let message := "Upload automático: " +:+ filename in
  let upload := UploadFile filename repo_id token message (disk s !! zip_path) in
  disk r.2 = disk s ∧
  ((repo_info w repo_id token = true ∧
    trace r.2 = trace s ++ [RepoInfo repo_id token; upload] ∧
    r.1 = upload_file w zip_path filename repo_id token message)
   ∨ (repo_info w repo_id token = false ∧ create_repo w repo_id token = true ∧
      trace r.2 = trace s ++ [RepoInfo repo_id token; CreateRepo repo_id token;
                              upload] ∧
      r.1 = upload_file w zip_path filename repo_id token message)
   ∨ (repo_info w repo_id token = false ∧ create_repo w repo_id token = false ∧
      trace r.2 = trace s ++ [RepoInfo repo_id token; CreateRepo repo_id token] ∧
      r.1 = None)).
Proof.
  cbn zeta. unfold upload_to_hf. run.
  destruct (repo_info w repo_id token) eqn:Hi; run.
  - split; [done|]. left. repeat split. by rewrite snoc_snoc.
  - destruct (create_repo w repo_id token) eqn:Hc; run.
    + split; [done|]. right; left. repeat split. by rewrite !snoc_snoc.
    + split; [done|]. right; right. repeat split. by rewrite snoc_snoc.
Qed.

(** ** The file-system tree *)

Section tree.
Import FS.

(** Induction on trees, with the hypothesis for every child. *)
Lemma node_rect' (P : node → Prop) :
  (∀ data, P (File data)) → P Special →
  (∀ children, Forall (λ kv, P kv.2) children → P (Dir children)) →
  ∀ n, P n.
Proof.
  intros HF HS HD. fix IH 1. intros [data| |children]; [apply HF|apply HS|].
  apply HD. induction children as [|[k v] rest IHrest]; constructor.
  - apply IH.
  - apply IHrest.
Qed.

Lemma wf_Dir children :
  wf (Dir children) ↔
  NoDup (map fst children) ∧ Forall (λ kv, plain kv.1 ∧ wf kv.2) children.
Proof.
  simpl. apply and_iff_compat_l.
  induction children as [|kv rest IH]; simpl.
  - split; [constructor|done].
  - rewrite IH. split.
    + intros (? & ? & ?). by constructor.
    + intros H. inversion H as [|?? [??] ?]; subst. done.
Qed.

Lemma plainb_plain name : plainb name = true ↔ plain name.
Proof.
  unfold plainb, plain. rewrite !andb_true_iff, !negb_true_iff, truthy_true.
  split.
  - intros [[[? ?] Hd] Hdd]. repeat split; [done..| |].
    + intros ->. done.
    + intros ->. done.
  - intros (? & ? & Hd & Hdd). repeat split; [done..| |].
    + by destruct (String.eqb_spec name ".").
    + by destruct (String.eqb_spec name "..").
Qed.

(** A plain name is neither the root nor the way up. *)
Lemma plain_not_root name : plain name → String.eqb name "/" = false.
Proof.
  intros (_ & H & _). destruct (String.eqb_spec name "/") as [->|]; done.
Qed.

Lemma plain_not_up name : plain name → String.eqb name ".." = false.
Proof.
  intros (_ & _ & _ & H). by destruct (String.eqb_spec name "..").
Qed.

(** In a well-formed directory every entry is listed. *)
Lemma listed_all children :
  Forall (λ kv : string * node, plain kv.1) children → listed children = children.
Proof.
  intros H. unfold listed. induction H as [|kv rest Hkv _ IH]; [done|].
  simpl. apply plainb_plain in Hkv. by rewrite Hkv, IH.
Qed.

Lemma listed_wf children : wf (Dir children) → listed children = children.
Proof.
  intros [_ Hall]%wf_Dir. apply listed_all.
  eapply List.Forall_impl; [|exact Hall]. by intros ? [? _].
Qed.

Lemma In_listed kv children :
  In kv (listed children) ↔ In kv children ∧ plain kv.1.
Proof. unfold listed. by rewrite filter_In, plainb_plain. Qed.

Lemma find_child_In name children v :
  find_child name children = Some v → In (name, v) children.
Proof.
  induction children as [|[k v'] rest IH]; [done|]. simpl.
  destruct (String.eqb_spec k name) as [->|Hne].
  - intros [= ->]. by left.
  - intros H. right. by apply IH.
Qed.

Lemma In_find_child name children v :
  NoDup (map fst children) → In (name, v) children →
  find_child name children = Some v.
Proof.
  induction children as [|[k v'] rest IH]; [done|]. simpl.
  intros Hnd [[= -> ->]|Hin].
  - by rewrite String.eqb_refl.
  - inversion Hnd as [|?? Hk Hrest]; subst.
    destruct (String.eqb_spec k name) as [->|Hne].
    + destruct Hk. apply list_elem_of_In, in_map_iff. by exists (name, v).
    + by apply IH.
Qed.

Lemma find_child_names name children :
  is_Some (find_child name children) ↔ In name (map fst children).
Proof.
  induction children as [|[k v] rest IH]; simpl.
  - split; [by intros [? ?]|done].
  - destruct (String.eqb_spec k name) as [->|Hne].
    + split; [by left|by eexists].
    + rewrite IH. split; [by right|]. by intros [?|?].
Qed.

Lemma descend_app n p q :
  descend n (p ++ q) = descend n p ≫= λ m, descend m q.
Proof.
  revert n. induction p as [|c p IH]; intros n; [done|]. simpl.
  destruct n as [| |children]; try done.
  destruct (find_child c children); [apply IH|done].
Qed.

Lemma descend_snoc n d k :
  descend n (d ++ [k]) =
  match descend n d with
  | Some (Dir children) => find_child k children
  | _ => None
  end.
Proof.
  rewrite descend_app. destruct (descend n d) as [[| |children]|]; try done.
  simpl. by destruct (find_child k children).
Qed.

(** Below a well-formed tree the names are plain and the subtrees
    well-formed. *)
Lemma descend_wf n rel m :
  wf n → descend n rel = Some m → Forall plain rel ∧ wf m.
Proof.
  revert n. induction rel as [|c rel IH]; intros n Hwf; simpl.
  - intros [= ->]. by split.
  - destruct n as [| |children]; try done.
    destruct (find_child c children) as [v|] eqn:Hc; [|done].
    apply find_child_In in Hc. apply wf_Dir in Hwf as [_ Hall].
    rewrite List.Forall_forall in Hall. destruct (Hall _ Hc) as [Hp Hv].
    intros Hl. destruct (IH _ Hv Hl). split; [by constructor|done].
Qed.

(** Following plain names from a directory is going down the tree. *)
Lemma walk_plain above n rel :
  Forall plain rel → snd <$> walk above n rel = descend n rel.
Proof.
  intros Hrel. revert above n.
  induction Hrel as [|c rel Hc Hrel IH]; intros above n; [done|].
  cbn [walk descend]. destruct n as [| |children]; try done.
  rewrite (plain_not_up _ Hc).
  destruct (find_child c children); [apply IH|done].
Qed.

Lemma walk_app above n p q :
  walk above n (p ++ q) = walk above n p ≫= λ x, walk x.1 x.2 q.
Proof.
  revert above n. induction p as [|c p IH]; intros above n; [done|].
  cbn [app walk]. destruct n as [| |children]; try done.
  destruct (String.eqb c "..").
  - destruct above; apply IH.
  - destruct (find_child c children); [apply IH|done].
Qed.

Lemma absolute_app p rel : Forall plain rel → absolute (p ++ rel) = absolute p.
Proof.
  intros Hrel. destruct p as [|c p]; [|done]. simpl.
  destruct Hrel as [|k rel Hk _]; [done|]. simpl. by apply plain_not_root.
Qed.

(** The entries of a folder are looked up by going down from the folder. *)
Lemma lookup_app v p rel m :
  lookup v p = Some m → Forall plain rel → lookup v (p ++ rel) = descend m rel.
Proof.
  unfold lookup. intros Hp Hrel. rewrite (absolute_app _ _ Hrel).
  destruct (absolute p) eqn:Ha.
  - destruct p as [|c p]; [done|]. cbn [app tail] in *.
    rewrite walk_app.
    destruct (walk [] (tree v) p) as [[above m']|]; [|done].
    simpl in Hp. injection Hp as ->. simpl. by apply walk_plain.
  - destruct (walk [] (tree v) (cwd v)) as [[above0 n0]|]; [|done].
    rewrite walk_app.
    destruct (walk above0 n0 p) as [[above m']|]; [|done].
    simpl in Hp. injection Hp as ->. simpl. by apply walk_plain.
Qed.

Lemma lookup_app_None v p rel :
  lookup v p = None → Forall plain rel → lookup v (p ++ rel) = None.
Proof.
  unfold lookup. intros Hp Hrel. rewrite (absolute_app _ _ Hrel).
  destruct (absolute p) eqn:Ha.
  - destruct p as [|c p]; [done|]. cbn [app tail] in *.
    rewrite walk_app. by destruct (walk [] (tree v) p) as [[above m']|].
  - destruct (walk [] (tree v) (cwd v)) as [[above0 n0]|]; [|done].
    rewrite walk_app. by destruct (walk above0 n0 p) as [[above m']|].
Qed.

(** The directories [dirs_under] lists are reached through plain names. *)
Lemma dirs_under_plain n d : In d (dirs_under n) → Forall plain d.
Proof.
  revert d. induction n as [data| |ch IH] using node_rect'; intros d;
    [done|done|].
  simpl. intros [<-|Hin]; [constructor|].
  apply in_flat_map in Hin as ([k v] & Hkv & Hin). cbn [fst snd] in Hin.
  destruct (plainb k) eqn:Hk; [|done].
  apply in_map_iff in Hin as (d' & <- & Hd').
  rewrite List.Forall_forall in IH.
  constructor; [by apply plainb_plain|]. by apply (IH _ Hkv).
Qed.

(** In a well-formed tree they are the paths that lead to a directory. *)
Lemma dirs_under_complete n d children :
  wf n → descend n d = Some (Dir children) → In d (dirs_under n).
Proof.
  revert n. induction d as [|c d IH]; intros n Hwf; simpl.
  - intros [= ->]. by left.
  - destruct n as [| |ch]; try done.
    destruct (find_child c ch) as [v|] eqn:Hc; [|done].
    intros Hl. right. apply in_flat_map. exists (c, v).
    apply find_child_In in Hc. split; [done|]. cbn [fst snd].
    apply wf_Dir in Hwf as [_ Hall]. rewrite List.Forall_forall in Hall.
    destruct (Hall _ Hc) as [Hp Hv]. apply plainb_plain in Hp.
    cbn [fst] in Hp. rewrite Hp. apply in_map. by apply IH.
Qed.

Lemma dirs_under_sound n d :
  wf n → In d (dirs_under n) → ∃ children, descend n d = Some (Dir children).
Proof.
  revert d. induction n as [data| |ch IH] using node_rect'; intros d Hwf;
    [done|done|].
  simpl. intros [<-|Hin]; [by eexists|].
  apply in_flat_map in Hin as ([k v] & Hkv & Hin). cbn [fst snd] in Hin.
  destruct (plainb k); [|done].
  apply in_map_iff in Hin as (d' & <- & Hd').
  apply wf_Dir in Hwf as [Hnd Hall].
  rewrite List.Forall_forall in IH, Hall.
  destruct (Hall _ Hkv) as [_ Hv].
  destruct (IH _ Hkv d' Hv Hd') as [children Hl].
  exists children. simpl. by rewrite (In_find_child _ _ _ Hnd Hkv).
Qed.
End tree.

(** ** Lists without repetition *)







Lemma flat_map_map {A B C} (f : A → B) (g : B → list C) l :
  flat_map g (map f l) = flat_map (λ x, g (f x)) l.
Proof. induction l as [|x l IH]; [done|]. simpl. by rewrite IH. Qed.

Lemma map_flat_map {A B C} (f : B → C) (g : A → list B) l :
  map f (flat_map g l) = flat_map (λ x, map f (g x)) l.
Proof. induction l as [|x l IH]; [done|]. simpl. by rewrite map_app, IH. Qed.

Lemma flat_map_ext_in {A B} (f g : A → list B) l :
  (∀ x, In x l → f x = g x) → flat_map f l = flat_map g l.
Proof.
  intros H. induction l as [|x l IH]; [done|]. simpl.
  rewrite (H x) by (by left). rewrite IH; [done|]. intros. apply H. by right.
Qed.

(** ** The listing of a folder *)

Section listing.
Import FS.


Lemma In_entries_at n d rel :
  In rel (entries_at n d) ↔
  ∃ children k, descend n d = Some (Dir children) ∧
                In k (map fst (listed children)) ∧ rel = d ++ [k].
Proof.
  unfold entries_at. destruct (descend n d) as [[| |children]|].
  1,2,4: split; [done|by intros (? & ? & ? & _)].
  rewrite in_map_iff. split.
  - intros ([k v] & <- & Hin). exists children, k.
    split; [done|]. split; [|done]. apply in_map_iff. by exists (k, v).
  - intros (? & k & [= <-] & Hin & ->).
    apply in_map_iff in Hin as ([k' v] & Hk & Hin). simpl in Hk. subst.
    by exists (k, v).
Qed.

(** The paths of the listing are made of plain names. *)
Lemma listing_plain n rel : In rel (listing n) → Forall plain rel.
Proof.
  unfold listing. intros (d & Hd & Hrel)%in_flat_map.
  apply In_entries_at in Hrel as (children & k & _ & Hk & ->).
  apply Forall_app. split; [by eapply dirs_under_plain|].
  apply in_map_iff in Hk as (kv & <- & Hkv). apply In_listed in Hkv as [_ ?].
  apply List.Forall_cons; [done|apply List.Forall_nil].
Qed.

(** The listing holds every path below the root that leads somewhere. *)
Lemma In_listing n rel :
  wf n → In rel (listing n) ↔ rel ≠ [] ∧ is_Some (descend n rel).
Proof.
  intros Hwf. unfold listing. rewrite in_flat_map. split.
  - intros (d & Hd & Hrel).
    apply In_entries_at in Hrel as (children & k & Hl & Hk & ->).
    split; [by destruct d|].
    rewrite descend_snoc, Hl. apply find_child_names.
    destruct (descend_wf _ _ _ Hwf Hl) as [_ Hc].
    by rewrite (listed_wf _ Hc) in Hk.
  - intros [Hne [m Hm]].
    destruct (exists_last Hne) as (d & k & ->).
    rewrite descend_snoc in Hm.
    destruct (descend n d) as [[| |children]|] eqn:Hd; try done.
    exists d. split; [by eapply dirs_under_complete|].
    apply In_entries_at. exists children, k.
    split; [done|]. split; [|done].
    destruct (descend_wf _ _ _ Hwf Hd) as [_ Hc].
    rewrite (listed_wf _ Hc). apply find_child_names. by eexists.
Qed.



(** [rglob] from a folder is the listing of the folder, each path
    prefixed with the folder's. *)
Lemma iterdir_at v p n d :
  lookup v p = Some n → Forall plain d →
  iterdir v (p ++ d) = map (app p) (entries_at n d).
Proof.
  intros Hp Hd. unfold iterdir, entries_at. rewrite (lookup_app _ _ _ _ Hp Hd).
  destruct (descend n d) as [[| |children]|]; try done.
  rewrite map_map. apply map_ext. intros kv. by rewrite <- List.app_assoc.
Qed.

Lemma rglob_at v p n :
  lookup v p = Some n → rglob v p = map (app p) (listing n).
Proof.
  intros Hp. unfold rglob, iterate_directories, listing. rewrite Hp.
  rewrite flat_map_map, map_flat_map. apply flat_map_ext_in.
  intros d Hd. apply iterdir_at; [done|]. by eapply dirs_under_plain.
Qed.

Lemma rglob_missing v p : lookup v p = None → rglob v p = [].
Proof. intros Hp. unfold rglob, iterate_directories. by rewrite Hp. Qed.

(** From a path that leads to no directory there is nothing to list. *)
Lemma rglob_not_a_directory v p : is_dir v p = false → rglob v p = [].
Proof.
  unfold is_dir. intros Hd.
  destruct (lookup v p) as [[| |]|] eqn:Hp; try done.
  - by rewrite (rglob_at _ _ _ Hp).
  - by rewrite (rglob_at _ _ _ Hp).
  - by apply rglob_missing.
Qed.

Lemma relative_to_app p rel : relative_to (p ++ rel) p = Some rel.
Proof.
  induction p as [|c p IH]; [done|]. simpl. by rewrite String.eqb_refl.
Qed.
End listing.

(** ** [create_zip] *)

Section create_zip.
Import FS.

Lemma is_file_at v p root rel :
  lookup v p = Some root → Forall plain rel →
  is_file v (p ++ rel)
  = match descend root rel with Some (File _) => true | _ => false end.
Proof. intros Hp Hrel. unfold is_file. by rewrite (lookup_app _ _ _ _ Hp Hrel). Qed.

(** When every entry can be read the loop does not raise, and appends what
    [entry_of] says for each path. *)
Lemma write_all_run w p root rels z :
  lookup (fs w) p = Some root → wf root →
  (∀ rel, In rel rels → Forall plain rel) →
  (∀ rel, In rel rels → can_read w (p ++ rel) = true) →
  write_all w p (map (app p) rels) z =
  ({| Zip.method := Zip.method z; Zip.compresslevel := Zip.compresslevel z;
      Zip.entries := Zip.entries z ++ flat_map (entry_of root) rels |}, true).
Proof.
  intros Hp Hwf. revert z. induction rels as [|rel rels IH]; intros z Hpl Hread.
  { simpl. rewrite app_nil_r. by destruct z. }
  assert (Forall plain rel) as Hrel by (apply Hpl; by left).
  cbn [map write_all flat_map].
  unfold is_file, is_dir, iterdir, Zip.write, entry_of.
  rewrite relative_to_app, (lookup_app _ _ _ _ Hp Hrel).
  rewrite (Hread rel) by (by left). cbn [negb].
  rewrite IH; [|intros; apply Hpl; by right|intros; apply Hread; by right].
  destruct (descend root rel) as [[data| |children]|] eqn:Hd;
    cbn [orb andb]; try done.
  - rewrite IH; [|intros; apply Hpl; by right|intros; apply Hread; by right].
    cbn [Zip.method Zip.compresslevel Zip.entries]. by rewrite snoc_snoc.
  - destruct (descend_wf _ _ _ Hwf Hd) as [_ Hc].
    rewrite (listed_wf _ Hc). destruct children as [|child children]; [|done].
    cbn [map].
    rewrite IH; [|intros; apply Hpl; by right|intros; apply Hread; by right].
    cbn [Zip.method Zip.compresslevel Zip.entries]. by rewrite snoc_snoc.
Qed.


Lemma filter_nil_iff {A} (f : A → bool) l :
  List.filter f l = [] ↔ ∀ x, In x l → f x = false.
Proof.
  induction l as [|x l IH]; simpl; [by split|].
  destruct (f x) eqn:Hx.
  - split; [done|]. intros H. specialize (H x (or_introl eq_refl)). congruence.
  - rewrite IH. split.
    + intros H y [<-|Hy]; [done|by apply H].
    + intros H y Hy. apply H. by right.
Qed.

(** [create_zip] on a folder without regular file. *)
Lemma create_zip_no_file w folder_path zip_path s :
  (∀ rel, Forall plain rel → is_file (fs w) (Path folder_path ++ rel) = false) →
  create_zip w folder_path zip_path s = (false, s).
Proof.
  intros Hnone. unfold create_zip.
  assert (List.filter (is_file (fs w)) (rglob (fs w) (Path folder_path)) = [])
    as ->; [|done].
  apply filter_nil_iff. intros q Hq.
  destruct (lookup (fs w) (Path folder_path)) as [root|] eqn:Hp.
  - rewrite (rglob_at _ _ _ Hp) in Hq.
    apply in_map_iff in Hq as (rel & <- & Hrel). apply Hnone.
    by eapply listing_plain.
  - by rewrite (rglob_missing _ _ Hp) in Hq.
Qed.

(** A regular file in the folder is counted. *)
Lemma total_files_positive w folder_path children rel data :
  lookup (fs w) (Path folder_path) = Some (Dir children) →
  wf (Dir children) →
  descend (Dir children) rel = Some (File data) →
  (length (List.filter (is_file (fs w))
             (map (app (Path folder_path)) (listing (Dir children)))) =? 0)
  = false.
Proof.
  intros Hp Hwf Hrel.
  assert (In rel (listing (Dir children))) as Hin.
  { apply In_listing; [done|]. split; [by destruct rel|by eexists]. }
  destruct (List.filter _ _) as [|q qs] eqn:Hf; [|done].
  rewrite filter_nil_iff in Hf.
  specialize (Hf (Path folder_path ++ rel) (in_map _ _ _ Hin)).
  rewrite (is_file_at _ _ _ _ Hp) in Hf by (by eapply listing_plain).
  by rewrite Hrel in Hf.
Qed.

(** [create_zip] on a folder with a regular file, when the archive can be
    created and the entries read. *)
Lemma create_zip_some_file w folder_path zip_path s children rel data :
  lookup (fs w) (Path folder_path) = Some (Dir children) →
  wf (Dir children) →
  descend (Dir children) rel = Some (File data) →
  can_open w zip_path = true →
  (∀ rel, can_read w (Path folder_path ++ rel) = true) →
  create_zip w folder_path zip_path s =
  (true,
   {| disk := <[zip_path := archive_of (Dir children)]> (disk s);
      trace := trace s ++ [ZipOpen zip_path] |}).
Proof.
  intros Hp Hwf Hrel Hopen Hread. unfold create_zip.
  rewrite (rglob_at _ _ _ Hp), (total_files_positive _ _ _ _ _ Hp Hwf Hrel).
  run. rewrite Hopen. cbn [negb].
  rewrite (write_all_run _ _ _ _ _ Hp Hwf);
    [|intros; by eapply listing_plain|done].
  run. done.
Qed.

(** When the archive cannot be created, nothing is written. *)
Lemma create_zip_unopened w folder_path zip_path s children rel data :
  lookup (fs w) (Path folder_path) = Some (Dir children) →
  wf (Dir children) →
  descend (Dir children) rel = Some (File data) →
  can_open w zip_path = false →
  create_zip w folder_path zip_path s =
  (false, {| disk := disk s; trace := trace s ++ [ZipOpen zip_path] |}).
Proof.
  intros Hp Hwf Hrel Hopen. unfold create_zip.
  rewrite (rglob_at _ _ _ Hp), (total_files_positive _ _ _ _ _ Hp Hwf Hrel).
  run. rewrite Hopen. done.
Qed.

End create_zip.

(** ** Names of archive members *)









(** ** The claims of the specification *)

(** C2. A destination identifier that does not hold exactly one ['/'], or
    with nothing to the left or to the right of it, is rejected by
    [validate_repo], and [upload_folder] then returns a failure message
    without having looked for the folder, created an archive or called the
    hub: the output files are untouched and the only call that may have been
    made is the installation of the client library. *)
Theorem C2_malformed_repo_rejected repo :
  malformed repo →
  (validate_repo repo).1 = false ∧
  ∀ w hf_token folder_path zip_name s,
    let r := upload_folder w hf_token repo folder_path zip_name s in
    ∃ message new,
      r.1 = Failure message ∧ Py.startswith message marker = true ∧
      disk r.2 = disk s ∧ extends s r.2 new ∧
      Forall (λ e, is_lookup e = false ∧ is_archive e = false
                   ∧ is_network e = false) new.
Proof.
  intros Hm. pose proof (validate_repo_malformed repo Hm) as Hv.
  split; [done|]. intros w hf_token folder_path zip_name s r.
  destruct (upload_folder_early w hf_token repo folder_path zip_name s
              (or_intror Hv)) as (Hd & message & Ho & Hmark & Ht).
  fold r in Hd, Ho, Ht. unfold extends.
  destruct Ht as [Ht|Ht].
  - exists message, []. rewrite app_nil_r. by repeat split.
  - exists message, [PipInstall]. repeat split; try done. by repeat constructor.
Qed.

(** The identifier ['alice'] of the specification's scenario. *)
Lemma C2_witness :
  malformed "alice" ∧
  (validate_repo "alice").1 = false ∧
  ∀ w hf_token folder_path zip_name s,
    let r := upload_folder w hf_token "alice" folder_path zip_name s in
    ∃ message new,
      r.1 = Failure message ∧ Py.startswith message marker = true ∧
      disk r.2 = disk s ∧ extends s r.2 new ∧
      Forall (λ e, is_lookup e = false ∧ is_archive e = false
                   ∧ is_network e = false) new.
Proof.
  assert (malformed "alice") as H by (left; simpl; lia).
  split; [exact H|]. exact (C2_malformed_repo_rejected "alice" H).
Defined.

(** C3. At a given time, of a year that has its four digits, the name is
    [<base>_<YYYYMMDD_HHMMSS>.zip]: the base is the custom name without its
    trailing ['.zip'] when one is supplied, the custom name itself when it
    has no such extension, and the name of the source folder when no custom
    name is supplied. *)
Theorem C3_generate_zip_name t folder_path custom_name :
  valid_datetime t → 1000 <= year t →
  ∃ ts, timestamp t ts ∧
    (∀ stem, custom_name = Some (stem +:+ ".zip") →
       generate_zip_name t folder_path custom_name
       = stem +:+ "_" +:+ ts +:+ ".zip") ∧
    (∀ name, custom_name = Some name → blank name = false →
       Py.endswith (Py.lower name) ".zip" = false →
       generate_zip_name t folder_path custom_name
       = name +:+ "_" +:+ ts +:+ ".zip") ∧
    (custom_name = None ∨ custom_name = Some "" →
       generate_zip_name t folder_path custom_name
       = Path_name folder_path +:+ "_" +:+ ts +:+ ".zip") ∧
    (∀ parent name, folder_path = parent +:+ "/" +:+ name → FS.plain name →
       Path_name folder_path = name).
Proof.
  intros Hv Hy. exists (strftime t "%Y%m%d_%H%M%S").
  split; [by apply strftime_timestamp|]. repeat split.
  - intros stem ->. by apply generate_zip_name_stem.
  - intros name -> Hb He. by apply generate_zip_name_plain.
  - by intros [->| ->].
  - intros parent name -> (? & ? & ? & _). by apply Path_name_child.
Qed.

Lemma C3_witness :
  valid_datetime demo_time ∧ 1000 <= year demo_time ∧
  ∃ ts, timestamp demo_time ts ∧
    (∀ stem, Some "pack.zip" = Some (stem +:+ ".zip") →
       generate_zip_name demo_time "/workspace/demo" (Some "pack.zip")
       = stem +:+ "_" +:+ ts +:+ ".zip") ∧
    (∀ name, Some "pack.zip" = Some name → blank name = false →
       Py.endswith (Py.lower name) ".zip" = false →
       generate_zip_name demo_time "/workspace/demo" (Some "pack.zip")
       = name +:+ "_" +:+ ts +:+ ".zip") ∧
    (Some "pack.zip" = None ∨ Some "pack.zip" = Some "" →
       generate_zip_name demo_time "/workspace/demo" (Some "pack.zip")
       = Path_name "/workspace/demo" +:+ "_" +:+ ts +:+ ".zip") ∧
    (∀ parent name, "/workspace/demo" = parent +:+ "/" +:+ name →
       FS.plain name → Path_name "/workspace/demo" = name).
Proof.
  assert (valid_datetime demo_time) as H
    by (repeat split; apply Nat.leb_le; vm_compute; reflexivity).
  assert (1000 <= year demo_time) as Hy
    by (apply Nat.leb_le; vm_compute; reflexivity).
  split; [exact H|]. split; [exact Hy|].
  exact (C3_generate_zip_name demo_time "/workspace/demo" (Some "pack.zip")
           H Hy).
Defined.

Example generate_zip_name_demo :
  generate_zip_name demo_time "/workspace/demo" (Some "pack.zip")
  = "pack_20240307_090559.zip"
  ∧ generate_zip_name demo_time "/workspace/demo" (Some "")
    = "demo_20240307_090559.zip".
Proof. split; reflexivity. Qed.

(** Before the year 1000 the year is printed without padding. *)
Example generate_zip_name_early_year :
  generate_zip_name
    {| year := 999; month := 3; day := 7; hour := 9; minute := 5; second := 59 |}
    "/workspace/demo" (Some "pack")
  = "pack_9990307_090559.zip".
Proof. reflexivity. Qed.

(** A custom name made of white space beyond ASCII counts as absent
    too. *)
Example generate_zip_name_no_break_space :
  generate_zip_name demo_time "/workspace/demo"
    (Some (no_break_space +:+ " " +:+ ideographic_space))
  = "demo_20240307_090559.zip".
Proof. reflexivity. Qed.

(** C4, as stated, fails for the missing credential: [validate_token]
    returns false on the empty string and [upload_folder] stops there. *)
Lemma C4_counterexample :
  validate_token "" = (false, ["❌ Token não fornecido!"]) ∧
  (upload_folder demo_world "" "alice/pack" "/workspace/demo" "" initial).1
  = Failure "❌ Token inválido".
Proof. split; reflexivity. Qed.

(** C4, amended.  A credential that is not empty is never fatal, however
    short or malformed: [validate_token] returns true, printing one warning
    when the ['hf_'] prefix is missing and one when the credential has fewer
    than 20 characters, and [upload_folder] does not return the
    invalid-credential failure; with the client library at hand it goes on to
    check the destination.  The empty credential is fatal: [validate_token]
    returns false, and [upload_folder] returns the invalid-credential
    failure in every world, unless the installation of the client library
    has failed before. *)
Theorem C4_credential_warning_only token :
  (token ≠ "" →
   validate_token token =
     (true,
      (if Py.startswith token "hf_" then []
       else ["⚠️  Token pode estar inválido (deveria começar com 'hf_')"])
      ++ (if (Py.len token <? 20)%nat
          then ["⚠️  Token parece muito curto"] else []))
   ∧ ∀ w repo_id folder_path zip_name s,
       let o := (upload_folder w token repo_id folder_path zip_name s).1 in
       o ≠ Failure "❌ Token inválido" ∧
       (library_state w = Importable → (validate_repo repo_id).1 = false →
        o = Failure "❌ Repositório inválido"))
  ∧ (token = "" →
     validate_token token = (false, ["❌ Token não fornecido!"])
     ∧ ∀ w repo_id folder_path zip_name s,
         (∀ e, library_state w ≠ Missing (Some e)) →
         (upload_folder w token repo_id folder_path zip_name s).1
         = Failure "❌ Token inválido").
Proof.
  split.
  - intros Hne. split.
    + unfold validate_token. apply truthy_true in Hne. rewrite Hne. cbn [negb].
      by destruct (Py.startswith token "hf_").
    + intros w repo_id folder_path zip_name s. cbn zeta. split.
      * intros Ho.
        destruct (upload_folder_returns w token repo_id folder_path zip_name s)
          as [(e & _ & E)|[[E _]|[[_ E]|[E|[(e & _ & E)|[E|[E|(u & _ & E)]]]]]]];
          try done; rewrite Ho in E; inversion E.
      * intros Hlib Hrepo. unfold upload_folder, install_dependencies.
        rewrite Hlib. run. rewrite validate_token_verdict.
        apply truthy_true in Hne. rewrite Hne, Hrepo. done.
  - intros ->. split; [done|]. intros w repo_id folder_path zip_name s Hlib.
    unfold upload_folder, install_dependencies.
    destruct (library_state w) as [|[e|]] eqn:Hl; run; try done.
    by destruct (Hlib e).
Qed.

Lemma C4_witness :
  "abc" ≠ "" ∧
  validate_token "abc" =
    (true,
     (if Py.startswith "abc" "hf_" then []
      else ["⚠️  Token pode estar inválido (deveria começar com 'hf_')"])
     ++ (if (Py.len "abc" <? 20)%nat
         then ["⚠️  Token parece muito curto"] else []))
  ∧ ∀ w repo_id folder_path zip_name s,
      let o := (upload_folder w "abc" repo_id folder_path zip_name s).1 in
      o ≠ Failure "❌ Token inválido" ∧
      (library_state w = Importable → (validate_repo repo_id).1 = false →
       o = Failure "❌ Repositório inválido").
Proof.
  assert ("abc" ≠ "") as H by discriminate.
  split; [exact H|]. exact (proj1 (C4_credential_warning_only "abc") H).
Defined.

(** The length is counted in characters: twelve letters of two bytes each
    are a short credential. *)
Example validate_token_short :
  String.length "éééééééééééé" = 24
  ∧ validate_token "éééééééééééé"
    = (true,
       ["⚠️  Token pode estar inválido (deveria começar com 'hf_')";
        "⚠️  Token parece muito curto"]).
Proof. split; reflexivity. Qed.

(** C5.  The interface declares four trigger inputs, all required, and the
    host passes every declared input by keyword; [upload_folder] has three
    trigger parameters, so the call raises a [TypeError] and no string is
    returned. *)
Theorem C5_declared_inputs_rejected :
  map fst (host_kwargs "hf_token_value" "alice/pack" "/workspace/demo" "")
  = map fst INPUT_TYPES
  ∧ invoke demo_world
      (host_kwargs "hf_token_value" "alice/pack" "/workspace/demo" "") initial
    = (inl (TypeError
         "upload_folder() got an unexpected keyword argument 'trigger_image_4'"),
       initial).
Proof. split; reflexivity. Qed.

(** C7.  [upload_to_hf] first asks the hub for the destination; it creates
    the destination exactly when that call raises, and, unless the creation
    raises too, uploads the archive once, under its file name, with a commit
    message that ends with the file name.  The output files are not
    changed. *)
Theorem C7_upload_to_hf w zip_path repo_id token s :
  let r := upload_to_hf w zip_path repo_id token s in
  let filename := os_path_basename zip_path in
  let message := "Upload automático: " +:+ filename in
  let upload := UploadFile filename repo_id token message (disk s !! zip_path) in
  disk r.2 = disk s ∧
  ((repo_info w repo_id token = true ∧
    extends s r.2 [RepoInfo repo_id token; upload] ∧
    r.1 = upload_file w zip_path filename repo_id token message)
   ∨ (repo_info w repo_id token = false ∧ create_repo w repo_id token = true ∧
      extends s r.2 [RepoInfo repo_id token; CreateRepo repo_id token; upload] ∧
      r.1 = upload_file w zip_path filename repo_id token message)
   ∨ (repo_info w repo_id token = false ∧ create_repo w repo_id token = false ∧
      extends s r.2 [RepoInfo repo_id token; CreateRepo repo_id token] ∧
      r.1 = None)).
Proof. apply upload_to_hf_spec. Qed.

(** C9.  [find_folder] tries the candidates in the order the specification
    lists them and returns the real path of the first that is a directory,
    having tested no later candidate; it returns [None] when none is a
    directory. *)
Theorem C9_find_folder w input s :
  possible_paths input = candidates input ∧
  let r := find_folder w input s in
  disk r.2 = disk s ∧
  match r.1 with
  | Some real =>
      ∃ before c after,
        candidates input = before ++ c :: after ∧
        Forall (λ x, isdir w x = false) before ∧
        isdir w c = true ∧ real = realpath w c ∧
        extends s r.2 (map IsDir (before ++ [c]) ++ [RealPath c])
  | None =>
      Forall (λ x, isdir w x = false) (candidates input) ∧
      extends s r.2 (map IsDir (candidates input))
  end.
Proof.
  split; [apply possible_paths_candidates|].
  unfold find_folder. rewrite possible_paths_candidates.
  apply first_directory_spec.
Qed.

(** C10.  A custom name that is empty or made of white space counts as
    absent: the base of the name is then the name of the source folder, the
    last component of its path.  A trailing ['.zip'] is recognised in any
    letter case and removed once only, whatever precedes it. *)
Theorem C10_generate_zip_name_custom t folder_path :
  (∀ name, blank name = true →
     generate_zip_name t folder_path (Some name)
     = Path_name folder_path +:+ "_" +:+ strftime t "%Y%m%d_%H%M%S" +:+ ".zip"
     ∧ generate_zip_name t folder_path (Some name)
       = generate_zip_name t folder_path None) ∧
  (∀ parent name, folder_path = parent +:+ "/" +:+ name → FS.plain name →
     Path_name folder_path = name) ∧
  (∀ stem ext, Py.lower ext = ".zip" →
     generate_zip_name t folder_path (Some (stem +:+ ext))
     = stem +:+ "_" +:+ strftime t "%Y%m%d_%H%M%S" +:+ ".zip").
Proof.
  split; [|split].
  - intros name Hb. split.
    + by apply generate_zip_name_fallback.
    + by apply generate_zip_name_absent.
  - intros parent name -> (? & ? & ? & _). by apply Path_name_child.
  - intros stem ext. apply generate_zip_name_stem.
Qed.

Lemma C10_witness :
  generate_zip_name demo_time "/workspace/demo" (Some "   ")
  = "demo" +:+ "_" +:+ strftime demo_time "%Y%m%d_%H%M%S" +:+ ".zip"
  ∧ generate_zip_name demo_time "/workspace/demo" (Some ("pack.zip" +:+ ".ZIP"))
    = "pack.zip" +:+ "_" +:+ strftime demo_time "%Y%m%d_%H%M%S" +:+ ".zip".
Proof.
  destruct (C10_generate_zip_name_custom demo_time "/workspace/demo")
    as (H1 & H2 & H3).
  split.
  - destruct (H1 "   " eq_refl) as [-> _].
    rewrite (H2 "/workspace" "demo" eq_refl); [reflexivity|].
    repeat split; discriminate.
  - apply H3. reflexivity.
Defined.

(** ** Stretches of a run without archive or upload *)

Lemma silent_refl s : silent s s.
Proof.
  split; [done|]. exists []. split; [|constructor].
  unfold extends. by rewrite app_nil_r.
Qed.

Lemma silent_trans s1 s2 s3 : silent s1 s2 → silent s2 s3 → silent s1 s3.
Proof.
  intros [Hd1 (n1 & He1 & Hf1)] [Hd2 (n2 & He2 & Hf2)]. split; [by auto|].
  exists (n1 ++ n2). split.
  - unfold extends in *. by rewrite He2, He1, <- List.app_assoc.
  - by apply Forall_app.
Qed.

Lemma silent_events s s' new :
  disk s' = disk s → extends s s' new →
  Forall (λ e, is_archive e = false ∧ is_network e = false) new →
  silent s s'.
Proof. intros Hd He Hf. split; [by rewrite Hd|]. by exists new. Qed.

Lemma silent_cleanup temp_dir s : silent s (cleanup temp_dir s).2.
Proof.
  split.
  - intros p z. simpl. by intros [? _]%map_lookup_filter_Some.
  - exists []. split; [|constructor]. unfold extends. simpl. by rewrite app_nil_r.
Qed.

Lemma silent_install w s : silent s (install_dependencies w s).2.
Proof.
  destruct (install_dependencies_run w s) as [Hd Hi].
  destruct (library_state w).
  - destruct Hi as [_ Ht]. apply (silent_events _ _ []); [done| |constructor].
    unfold extends. by rewrite app_nil_r.
  - destruct Hi as [_ Ht]. apply (silent_events _ _ [PipInstall]); [done..|].
    by repeat constructor.
Qed.

Lemma first_directory_value w paths s s' :
  (first_directory w paths s).1 = (first_directory w paths s').1.
Proof.
  revert s s'. induction paths as [|path rest IH]; intros s s'; [done|].
  cbn [first_directory]. run. destruct (isdir w path); run; [done|apply IH].
Qed.

Lemma silent_find_folder w input s : silent s (find_folder w input s).2.
Proof.
  unfold find_folder.
  destruct (first_directory_spec w (possible_paths input) s) as [Hd Hr].
  destruct (first_directory w _ s) as [[real|] s']; cbn [fst snd] in *.
  - destruct Hr as (before & c & after & _ & _ & _ & _ & Ht).
    apply (silent_events _ _ _ Hd Ht). apply Forall_app. split.
    + apply List.Forall_forall. by intros e (? & <- & _)%in_map_iff.
    + by repeat constructor.
  - destruct Hr as [_ Ht]. apply (silent_events _ _ _ Hd Ht).
    apply List.Forall_forall. by intros e (? & <- & _)%in_map_iff.
Qed.

Lemma silent_emit e s :
  is_archive e = false → is_network e = false → silent s (emit e s).2.
Proof.
  intros. apply (silent_events _ _ [e]); [done..|]. by repeat constructor.
Qed.

(** [upload_folder] on a folder for which [create_zip] gives up at once. *)
Lemma upload_folder_not_zipped w hf_token repo_id input zip_name s real :
  (find_folder w input initial).1 = Some real →
  (∀ zip_path s', create_zip w real zip_path s' = (false, s')) →
  let r := upload_folder w hf_token repo_id input zip_name s in
  (∃ message, r.1 = Failure message) ∧
  silent s r.2 ∧
  (library_state w = Importable → hf_token ≠ "" →
   (validate_repo repo_id).1 = true → real ≠ "" →
   (∃ temp_dir, mkdtemp w = inl temp_dir) →
   r.1 = Failure "❌ Falha ao criar ZIP").
Proof.
  intros Hfound Hzip. cbn zeta. unfold upload_folder. run.
  pose proof (silent_install w s) as H1.
  pose proof (install_dependencies_run w s) as [_ Hi].
  destruct (install_dependencies w s) as [failed s1]. cbn [fst snd] in *.
  destruct failed as [e|].
  { run. split; [by eexists|]. split; [done|].
    intros Hlib. rewrite Hlib in Hi. by destruct Hi. }
  rewrite validate_token_verdict.
  destruct (Py.truthy hf_token) eqn:Htok; cbn [negb]; run.
  2: { split; [by eexists|]. split; [done|].
       intros _ Hne. by apply truthy_false in Htok. }
  destruct (validate_repo repo_id).1 eqn:Hrepo; cbn [negb]; run.
  2: { split; [by eexists|]. split; [done|]. by intros _ _ ?. }
  pose proof (silent_find_folder w input s1) as H2.
  assert ((find_folder w input s1).1 = Some real) as Hf
    by (rewrite <- Hfound; apply first_directory_value).
  destruct (find_folder w input s1) as [found s2]. cbn [fst snd] in *.
  subst found.
  pose proof (silent_trans _ _ _ H1 H2) as H12.
  destruct (Py.truthy real) eqn:Hreal; cbn [negb]; run.
  2: { split; [by eexists|]. split; [done|].
       intros _ _ _ Hne. by apply truthy_false in Hreal. }
  assert (silent s {| disk := disk s2; trace := trace s2 ++ [MkTemp] |}) as H3.
  { eapply silent_trans; [exact H12|]. by apply (silent_emit MkTemp). }
  destruct (mkdtemp w) as [temp_dir|e]; run.
  2: { split; [by eexists|]. split; [done|]. by intros _ _ _ _ [? ?]. }
  rewrite Hzip. cbn [fst snd negb]. run.
  split; [by eexists|]. split; [|done].
  eapply silent_trans; [exact H3|]. apply silent_cleanup.
Qed.



Ltac solve_wf :=
  simpl;
  repeat match goal with
         | |- _ ∧ _ => split
         | |- True => exact I
         | |- NoDup _ => apply (bool_decide_unpack _); vm_compute; exact I
         | |- FS.plain _ => unfold FS.plain; simpl
         | |- _ ≠ _ => discriminate
         | |- _ = _ => reflexivity
         end.

Lemma demo_tree_wf : FS.wf demo_tree.
Proof. solve_wf. Qed.

Lemma demo_folder_wf : FS.wf demo_folder.
Proof. solve_wf. Qed.


(** The scenario of the specification: the archive of the sample folder has
    the three members ['a.txt'], ['b/c.txt'] and ['d/'].  The folder may be
    named from the working directory and through ['..'] as well. *)
Example create_zip_scenario :
  let r := create_zip demo_world "/workspace/demo" "/tmp/tmpk3v9/demo.zip"
             initial in
  r.1 = true ∧
  Zip.namelist <$> disk r.2 !! "/tmp/tmpk3v9/demo.zip"
  = Some ["a.txt"; "d/"; "b/c.txt"] ∧
  ["a.txt"; "d/"; "b/c.txt"] ≡ₚ ["a.txt"; "b/c.txt"; "d/"] ∧
  create_zip demo_world "demo" "/tmp/tmpk3v9/demo.zip" initial = r ∧
  create_zip demo_world "/workspace/hollow/../demo" "/tmp/tmpk3v9/demo.zip"
    initial = r.
Proof.
  split; [reflexivity|]. split; [by vm_compute|].
  split; [apply perm_skip, perm_swap|]. split; reflexivity.
Qed.

Lemma list_sum_zero l x : list_sum l = 0 → In x l → x = 0.
Proof.
  induction l as [|y l IH]; [done|]. simpl. intros Hs [->|Hin]; [lia|].
  apply IH; [lia|done].
Qed.

(** A tree that counts no file has none at any path. *)
Lemma files_zero n rel :
  FS.files n = 0 →
  match FS.descend n rel with Some (FS.File _) => true | _ => false end = false.
Proof.
  revert n. induction rel as [|c rel IH]; intros n Hn.
  - simpl. by destruct n.
  - simpl. destruct n as [| |children]; try done.
    destruct (FS.find_child c children) as [v|] eqn:Hc; [|done].
    apply IH. apply find_child_In in Hc. simpl in Hn.
    apply (list_sum_zero _ _ Hn). apply in_map_iff. by exists (c, v).
Qed.

Lemma create_zip_empty w folder_path zip_path s root :
  FS.lookup (fs w) (Path folder_path) = Some root →
  FS.files root = 0 →
  create_zip w folder_path zip_path s = (false, s).
Proof.
  intros Hp Hn. apply create_zip_no_file. intros rel Hrel.
  rewrite (is_file_at _ _ _ _ Hp Hrel). by apply files_zero.
Qed.

(** C8.  When the source folder counts no regular file, [create_zip]
    returns false and leaves the state as it was: no archive is opened and no
    file is written.  Directories in the folder, empty or not, do not
    count. *)
Theorem C8_no_regular_file w folder_path zip_path s root :
  FS.lookup (fs w) (Path folder_path) = Some root →
  FS.files root = 0 →
  create_zip w folder_path zip_path s = (false, s).
Proof. apply create_zip_empty. Qed.

Lemma C8_witness :
  create_zip demo_world "/workspace/hollow" "/tmp/tmpk3v9/hollow.zip" initial
  = (false, initial).
Proof.
  apply (C8_no_regular_file demo_world "/workspace/hollow"
           "/tmp/tmpk3v9/hollow.zip" initial
           (FS.Dir [("x", FS.Dir []); ("y", FS.Dir [("z", FS.Dir [])])])).
  - reflexivity.
  - reflexivity.
Defined.

(** C6.  On an empty source folder [create_zip] returns false and leaves the
    state as it was, so that no archive exists; [upload_folder], when its
    lookup resolves to that folder, returns a failure message, creates no
    archive and does not call the hub, and the message is the one of the
    archive step when the earlier steps pass. *)
Theorem C6_empty_folder w folder_path :
  FS.lookup (fs w) (Path folder_path) = Some (FS.Dir []) →
  (∀ zip_path s, create_zip w folder_path zip_path s = (false, s)) ∧
  ∀ hf_token repo_id input zip_name s,
    (find_folder w input initial).1 = Some folder_path →
    let r := upload_folder w hf_token repo_id input zip_name s in
    (∃ message, r.1 = Failure message ∧ Py.startswith message marker = true) ∧
    silent s r.2 ∧
    (library_state w = Importable → hf_token ≠ "" →
     (validate_repo repo_id).1 = true → folder_path ≠ "" →
     (∃ temp_dir, mkdtemp w = inl temp_dir) →
     r.1 = Failure "❌ Falha ao criar ZIP").
Proof.
  intros Hp.
  assert (∀ zip_path s, create_zip w folder_path zip_path s = (false, s)) as Hz.
  { intros. by apply (create_zip_empty w folder_path zip_path s (FS.Dir [])). }
  split; [exact Hz|]. intros hf_token repo_id input zip_name s Hfound.
  destruct (upload_folder_not_zipped w hf_token repo_id input zip_name s
              folder_path Hfound Hz) as ([message Hm] & Hs & Hlast).
  cbn zeta. split; [|by split].
  exists message. split; [done|]. by eapply upload_folder_failure_marked.
Qed.

Lemma C6_witness :
  (∀ zip_path s, create_zip demo_world "/workspace/void" zip_path s = (false, s)) ∧
  ∀ hf_token repo_id input zip_name s,
    (find_folder demo_world input initial).1 = Some "/workspace/void" →
    let r := upload_folder demo_world hf_token repo_id input zip_name s in
    (∃ message, r.1 = Failure message ∧ Py.startswith message marker = true) ∧
    silent s r.2 ∧
    (library_state demo_world = Importable → hf_token ≠ "" →
     (validate_repo repo_id).1 = true → "/workspace/void" ≠ "" →
     (∃ temp_dir, mkdtemp demo_world = inl temp_dir) →
     r.1 = Failure "❌ Falha ao criar ZIP").
Proof.
  apply (C6_empty_folder demo_world "/workspace/void"). reflexivity.
Defined.

Example upload_folder_void :
  (find_folder demo_world "workspace/void" initial).1 = Some "/workspace/void" ∧
  (upload_folder demo_world "hf_token_value" "alice/pack" "workspace/void" ""
     initial).1 = Failure "❌ Falha ao criar ZIP".
Proof. split; reflexivity. Qed.

(** * Further properties of the module *)

(** ** [validate_repo] *)

(** [validate_repo] accepts exactly the identifiers [owner/name] with a
    non-empty owner and a non-empty name, neither holding a slash; it prints
    nothing when it accepts. *)
Theorem validate_repo_exact repo :
  ((validate_repo repo).1 = true ↔
   ∃ owner name, repo = owner +:+ "/" +:+ name ∧ owner ≠ "" ∧ name ≠ "" ∧
     Py.contains "/" owner = false ∧ Py.contains "/" name = false)
  ∧ ((validate_repo repo).1 = true → (validate_repo repo).2 = []).
Proof.
  split; [split|].
  - apply validate_repo_inv.
  - intros (owner & name & -> & ? & ? & ? & ?).
    by rewrite validate_repo_accepts.
  - intros H. destruct (validate_repo_inv repo H)
      as (owner & name & -> & ? & ? & ? & ?).
    by rewrite validate_repo_accepts.
Qed.

(** ** [generate_zip_name] *)

(** Writing the ['.zip'] extension, in any letter case, after a custom
    name changes nothing: the name generated for [name.zip] is the one
    generated for [name], for every name that is not blank and does not
    already end with the extension. *)
Theorem generate_zip_name_extension t folder_path name ext :
  blank name = false → Py.lower ext = ".zip" →
  Py.endswith (Py.lower name) ".zip" = false →
  generate_zip_name t folder_path (Some (name +:+ ext))
  = generate_zip_name t folder_path (Some name).
Proof.
  intros Hb Hext He.
  by rewrite generate_zip_name_stem, generate_zip_name_plain.
Qed.

Lemma generate_zip_name_extension_witness :
  generate_zip_name demo_time "/workspace/demo" (Some ("pack" +:+ ".Zip"))
  = generate_zip_name demo_time "/workspace/demo" (Some "pack").
Proof.
  apply generate_zip_name_extension; reflexivity.
Defined.

(** ** The steps of [upload_folder] *)

Lemma state_eta s : {| disk := disk s; trace := trace s |} = s.
Proof. by destruct s. Qed.

Lemma first_directory_found w before c after s :
  Forall (λ x, isdir w x = false) before → isdir w c = true →
  first_directory w (before ++ c :: after) s =
  (Some (realpath w c),
   {| disk := disk s;
      trace := trace s ++ map IsDir (before ++ [c]) ++ [RealPath c] |}).
Proof.
  intros Hb Hc. revert s. induction Hb as [|x before Hx Hb IH]; intros s.
  - cbn [app first_directory]. run. rewrite Hc. run. by rewrite snoc_snoc.
  - cbn [app first_directory]. run. rewrite Hx, IH. cbn [disk trace map].
    by rewrite snoc_snoc.
Qed.

Lemma first_directory_none w paths s :
  Forall (λ x, isdir w x = false) paths →
  first_directory w paths s =
  (None, {| disk := disk s; trace := trace s ++ map IsDir paths |}).
Proof.
  intros Hb. revert s. induction Hb as [|x paths Hx Hb IH]; intros s.
  - simpl. rewrite app_nil_r. by rewrite state_eta.
  - cbn [first_directory]. run. rewrite Hx, IH. cbn [disk trace map].
    by rewrite snoc_snoc.
Qed.

(** When the client library cannot be installed, [upload_folder] reports
    the text of the exception and does nothing else: [pip] was run once and
    no input was even validated. *)
Theorem upload_folder_install_failure w e hf_token repo_id folder_path zip_name s :
  library_state w = Missing (Some e) →
  upload_folder w hf_token repo_id folder_path zip_name s =
  (Failure ("❌ Erro ao instalar dependências: " +:+ e),
   {| disk := disk s; trace := trace s ++ [PipInstall] |}).
Proof.
  intros Hlib. unfold upload_folder, install_dependencies. rewrite Hlib.
  by run.
Qed.


Lemma first_directory_installed w paths s :
  first_directory (installed w) paths s = first_directory w paths s.
Proof.
  revert s. induction paths as [|path rest IH]; intros s; [done|].
  cbn [first_directory]. run. cbn [installed isdir realpath].
  destruct (isdir w path); [done|apply IH].
Qed.

Lemma write_all_installed w p all_files z :
  write_all (installed w) p all_files z = write_all w p all_files z.
Proof.
  revert z. induction all_files as [|q rest IH]; intros z; [done|].
  cbn [write_all installed fs can_read]. destruct (_ || _); [|apply IH].
  destruct (FS.relative_to q p) as [arcname|]; [|done].
  destruct (Zip.write _ _ _ _ _); [apply IH|done].
Qed.

Lemma create_zip_installed w folder_path zip_path s :
  create_zip (installed w) folder_path zip_path s
  = create_zip w folder_path zip_path s.
Proof.
  unfold create_zip. rewrite write_all_installed. reflexivity.
Qed.

Lemma upload_to_hf_installed w zip_path repo_id token s :
  upload_to_hf (installed w) zip_path repo_id token s
  = upload_to_hf w zip_path repo_id token s.
Proof. reflexivity. Qed.

(** When [pip] installs the missing library, the run goes on exactly as one
    that found the library, after the one call to [pip]. *)
Theorem upload_folder_after_install w hf_token repo_id folder_path zip_name s :
  library_state w = Missing None →
  upload_folder w hf_token repo_id folder_path zip_name s =
  upload_folder (installed w) hf_token repo_id folder_path zip_name
    {| disk := disk s; trace := trace s ++ [PipInstall] |}.
Proof.
  intros Hlib. unfold upload_folder, install_dependencies, find_folder.
  rewrite Hlib. cbn [installed library_state]. run.
  destruct (negb (validate_token hf_token).1); [done|].
  destruct (negb (validate_repo repo_id).1); [done|]. run.
  rewrite first_directory_installed.
  destruct (first_directory w _ _) as [[real|] s2]; [|done]. cbn [fst snd].
  destruct (negb (Py.truthy real)); [done|]. run. cbn [installed mkdtemp now].
  destruct (mkdtemp w) as [temp_dir|e]; [|done]. run.
  rewrite create_zip_installed.
  destruct (create_zip w _ _ _) as [[] s3]; cbn [fst snd negb]; [|done]. run.
  rewrite upload_to_hf_installed. done.
Qed.

(** A missing credential stops [upload_folder] before anything else is
    done. *)
Theorem upload_folder_missing_token w repo_id folder_path zip_name s :
  library_state w = Importable →
  upload_folder w "" repo_id folder_path zip_name s
  = (Failure "❌ Token inválido", s).
Proof.
  intros Hlib. unfold upload_folder, install_dependencies. rewrite Hlib.
  run. reflexivity.
Qed.

(** When none of the candidate paths is a directory, [upload_folder] has
    asked for each of them in order, and for nothing else, and reports that
    the folder was not found. *)
Theorem upload_folder_not_found w hf_token repo_id folder_path zip_name s :
  library_state w = Importable → hf_token ≠ "" →
  (validate_repo repo_id).1 = true →
  Forall (λ x, isdir w x = false) (possible_paths folder_path) →
  upload_folder w hf_token repo_id folder_path zip_name s =
  (Failure "❌ Pasta não encontrada",
   {| disk := disk s;
      trace := trace s ++ map IsDir (possible_paths folder_path) |}).
Proof.
  intros Hlib Htok Hrepo Hnone.
  unfold upload_folder, install_dependencies, find_folder. rewrite Hlib. run.
  rewrite validate_token_verdict. apply truthy_true in Htok.
  rewrite Htok, Hrepo. cbn [negb]. run.
  by rewrite first_directory_none.
Qed.

(** ** What [create_zip] leaves behind *)

Lemma write_params v readable file_path arcname z z' :
  Zip.write v readable file_path arcname z = Some z' →
  Zip.method z' = Zip.method z ∧ Zip.compresslevel z' = Zip.compresslevel z.
Proof.
  unfold Zip.write. destruct readable; [|done]. cbn [negb].
  destruct (FS.lookup v file_path) as [[| |]|]; intros [= <-]; done.
Qed.

Lemma write_all_params w p all_files z :
  Zip.method (write_all w p all_files z).1 = Zip.method z ∧
  Zip.compresslevel (write_all w p all_files z).1 = Zip.compresslevel z.
Proof.
  revert z. induction all_files as [|q rest IH]; intros z; [done|].
  cbn [write_all]. destruct (_ || _); [|apply IH].
  destruct (FS.relative_to q p) as [arcname|]; [|done].
  destruct (Zip.write (fs w) _ q arcname z) as [z'|] eqn:Hw; [|done].
  destruct (write_params _ _ _ _ _ _ Hw) as [<- <-]. apply IH.
Qed.

(** What [create_zip] does to the state. *)
Lemma create_zip_outcome w folder_path zip_path s :
  let r := create_zip w folder_path zip_path s in
  r = (false, s)
  ∨ (can_open w zip_path = false ∧
     r = (false, {| disk := disk s; trace := trace s ++ [ZipOpen zip_path] |}))
  ∨ (can_open w zip_path = true ∧
     ∃ z, r.2 = {| disk := <[zip_path := z]> (disk s);
                   trace := trace s ++ [ZipOpen zip_path] |} ∧
          Zip.method z = Zip.ZIP_DEFLATED ∧ Zip.compresslevel z = Some 6).
Proof.
  cbn zeta. unfold create_zip.
  destruct (length _ =? 0)%nat; [by left|]. right. run.
  destruct (can_open w zip_path); cbn [negb]; [right|by left].
  split; [done|].
  pose proof (write_all_params w (Path folder_path)
                (FS.rglob (fs w) (Path folder_path))
                (Zip.open Zip.ZIP_DEFLATED (Some 6))) as [Hm Hl].
  destruct (write_all _ _ _ _) as [zipf finished]. run.
  exists zipf. done.
Qed.

(** [create_zip] ends in one of three ways.  It gives up before touching
    anything, when it counts no regular file.  Or it tries to create the
    archive at [zip_path] and cannot: it returns false and no file is
    written.  Or it creates the archive, for deflate at level 6, and leaves
    it at [zip_path], whether or not it then returns true. *)
Theorem create_zip_effect w folder_path zip_path s :
  let r := create_zip w folder_path zip_path s in
  r = (false, s)
  ∨ (can_open w zip_path = false ∧
     r = (false, {| disk := disk s; trace := trace s ++ [ZipOpen zip_path] |}))
  ∨ (can_open w zip_path = true ∧
     ∃ z, r.2 = {| disk := <[zip_path := z]> (disk s);
                   trace := trace s ++ [ZipOpen zip_path] |} ∧
          Zip.method z = Zip.ZIP_DEFLATED ∧ Zip.compresslevel z = Some 6).
Proof. apply create_zip_outcome. Qed.

(** [create_zip] on a path that leads to no directory (nothing there, or a
    file) returns false and does nothing. *)
Theorem create_zip_not_a_directory w folder_path zip_path s :
  FS.is_dir (fs w) (Path folder_path) = false →
  create_zip w folder_path zip_path s = (false, s).
Proof.
  intros Hd. unfold create_zip. by rewrite (rglob_not_a_directory _ _ Hd).
Qed.

Lemma create_zip_not_a_directory_witness :
  create_zip demo_world "/workspace/demo/a.txt" "/tmp/tmpk3v9/a.zip" initial
  = (false, initial)
  ∧ create_zip demo_world "/workspace/nowhere" "/tmp/tmpk3v9/n.zip" initial
    = (false, initial)
  ∧ create_zip demo_world "/workspace/demo/a.txt/.." "/tmp/tmpk3v9/n.zip" initial
    = (false, initial).
Proof.
  split; [|split]; apply create_zip_not_a_directory; reflexivity.
Defined.

Lemma startswith_slash_app a b :
  Py.startswith (a +:+ b) "/" =
  match a with
  | EmptyString => Py.startswith b "/"
  | String _ _ => Py.startswith a "/"
  end.
Proof. by destruct a. Qed.


(** ** A run of [upload_folder] that reaches the archive step *)

Section archive_step.
Variable w : world.
Variables hf_token repo_id input zip_name : string.
Variables (before after : list string) (c temp_dir : string).
Variable children : list (string * FS.node).

Let real := realpath w c.
Let zip_path :=
os_path_join temp_dir (generate_zip_name (now w) real (Some zip_name)).
Let filename := os_path_basename zip_path.
Let message := "Upload automático: " +:+ filename.
Let archive : Zip.archive := archive_of (FS.Dir children).

Hypothesis library_ok : library_state w = Importable.
Hypothesis token_ok : hf_token ≠ "".
Hypothesis repo_ok : (validate_repo repo_id).1 = true.
Hypothesis candidates_ok : possible_paths input = before ++ c :: after.
Hypothesis before_ok : Forall (λ x, isdir w x = false) before.
Hypothesis found_ok : isdir w c = true.
Hypothesis real_ok : real ≠ "".
Hypothesis temp_ok : mkdtemp w = inl temp_dir.
Hypothesis folder_ok : FS.lookup (fs w) (Path real) = Some (FS.Dir children).
Hypothesis wf_ok : FS.wf (FS.Dir children).
Hypothesis file_ok :
∃ rel data, FS.descend (FS.Dir children) rel = Some (FS.File data).
Hypothesis open_ok : can_open w zip_path = true.
Hypothesis read_ok : ∀ rel, can_read w (Path real ++ rel) = true.

(** The calls made up to the end of the archive step. *)
Let prelude : list event :=
map IsDir (before ++ [c]) ++ [RealPath c; MkTemp; ZipOpen zip_path].

(** The state in which the upload starts. *)
Let zipped (s : state) : state :=
{| disk := <[zip_path := archive]> (disk s);
   trace := trace s ++ prelude |}.

Lemma upload_folder_archive_step s :
upload_folder w hf_token repo_id input zip_name s =
let r := upload_to_hf w zip_path repo_id hf_token (zipped s) in
(match r.1 with
 | Some url =>
     if Py.truthy url then Url url else Failure "❌ Falha no upload"
 | None => Failure "❌ Falha no upload"
 end,
 (cleanup temp_dir r.2).2).
Proof.
destruct file_ok as (rel & data & Hfile).
unfold upload_folder, install_dependencies, find_folder.
rewrite library_ok. run.
rewrite validate_token_verdict. apply truthy_true in token_ok.
rewrite token_ok, repo_ok. cbn [negb]. run.
rewrite candidates_ok, first_directory_found by done. cbn [fst snd]. fold real.
apply truthy_true in real_ok. rewrite real_ok. cbn [negb]. run.
rewrite temp_ok. run. fold zip_path.
rewrite (create_zip_some_file w real zip_path _ children rel data) by done.
cbn [fst snd negb disk trace]. run. fold archive.
assert ({| disk := <[zip_path:=archive]> (disk s);
           trace := ((trace s ++ map IsDir (before ++ [c]) ++ [RealPath c])
                     ++ [MkTemp]) ++ [ZipOpen zip_path] |} = zipped s) as ->.
{ unfold zipped, prelude. f_equal.
  rewrite <- !List.app_assoc. done. }
cbn zeta.
destruct (upload_to_hf w zip_path repo_id hf_token (zipped s)) as [[url|] s4];
  run; [destruct (Py.truthy url)|]; done.
Qed.


(** When the hub refuses (the destination can be neither found nor created,
  or the upload raises, or no URL comes back), [upload_folder] reports the
  failure of the upload; the archive had been created. *)
Theorem upload_folder_upload_failure s :
(repo_info w repo_id hf_token = false ∧ create_repo w repo_id hf_token = false)
∨ upload_file w zip_path filename repo_id hf_token message = None
∨ upload_file w zip_path filename repo_id hf_token message = Some "" →
let r := upload_folder w hf_token repo_id input zip_name s in
r.1 = Failure "❌ Falha no upload" ∧
∃ calls, trace r.2 = trace s ++ prelude ++ RepoInfo repo_id hf_token :: calls.
Proof.
intros Hhub. cbn zeta. rewrite upload_folder_archive_step. cbn zeta.
pose proof (upload_to_hf_spec w zip_path repo_id hf_token (zipped s)) as Hspec.
cbn zeta in Hspec. fold filename message in Hspec. unfold extends in Hspec.
destruct (upload_to_hf w zip_path repo_id hf_token (zipped s)) as [res s4].
cbn [fst snd cleanup trace] in *.
destruct Hspec as [_ [(Hi & Ht & ->)|[(Hi & Hc & Ht & ->)|(Hi & Hc & Ht & ->)]]];
  rewrite Ht; cbn [zipped trace]; rewrite <- List.app_assoc.
- split; [|by eexists].
  destruct Hhub as [[? _]|[-> | ->]]; [congruence|done..].
- split; [|by eexists].
  destruct Hhub as [[_ ?]|[-> | ->]]; [congruence|done..].
- split; [done|by eexists].
Qed.

End archive_step.

(** ** Every run of [upload_folder] *)


(** A run either stops before the [with] block, having written nothing,
    created no archive and called no hub, or enters it with a credential
    that is not empty, a well-formed destination and the folder found. *)
Lemma upload_folder_structure w hf_token repo_id input zip_name s :
  let r := upload_folder w hf_token repo_id input zip_name s in
  ∃ pre,
    Forall (λ e, is_archive e = false ∧ is_network e = false) pre ∧
    ((disk r.2 = disk s ∧ trace r.2 = trace s ++ pre ∧
      ∃ message, r.1 = Failure message)
     ∨ ∃ real temp_dir,
         hf_token ≠ "" ∧ (validate_repo repo_id).1 = true ∧
         (find_folder w input initial).1 = Some real ∧
         mkdtemp w = inl temp_dir ∧
         r = with_block w hf_token repo_id real temp_dir zip_name
               {| disk := disk s; trace := trace s ++ pre |}).
Proof.
  cbn zeta. unfold upload_folder. run.
  pose proof (silent_install w s) as [_ (n1 & He1 & Hf1)].
  pose proof (install_dependencies_run w s) as [Hd1 _].
  destruct (install_dependencies w s) as [failed s1]. cbn [fst snd] in *.
  unfold extends in *.
  destruct failed as [e|].
  { run. exists n1. split; [done|]. left. by eauto. }
  rewrite validate_token_verdict.
  destruct (Py.truthy hf_token) eqn:Htok; cbn [negb]; run.
  2: { exists n1. split; [done|]. left. by eauto. }
  destruct (validate_repo repo_id).1 eqn:Hrepo; cbn [negb]; run.
  2: { exists n1. split; [done|]. left. by eauto. }
  pose proof (silent_find_folder w input s1) as [_ (n2 & He2 & Hf2)].
  pose proof (first_directory_spec w (possible_paths input) s1) as [Hd2 _].
  pose proof (first_directory_value w (possible_paths input) s1 initial) as Hv.
  fold (find_folder w input s1) in Hd2, Hv.
  fold (find_folder w input initial) in Hv.
  destruct (find_folder w input s1) as [found s2]. cbn [fst snd] in *.
  unfold extends in *.
  assert (trace s2 = trace s ++ n1 ++ n2) as Ht2
    by (by rewrite He2, He1, <- List.app_assoc).
  assert (Forall (λ e, is_archive e = false ∧ is_network e = false) (n1 ++ n2))
    as Hf12 by (by apply Forall_app).
  destruct found as [real|]; run.
  2: { exists (n1 ++ n2). split; [done|]. left. rewrite Hd2. by eauto. }
  destruct (Py.truthy real) eqn:Hreal; cbn [negb]; run.
  2: { exists (n1 ++ n2). split; [done|]. left. rewrite Hd2. by eauto. }
  exists ((n1 ++ n2) ++ [MkTemp]). split.
  { apply Forall_app. split; [done|]. by repeat constructor. }
  destruct (mkdtemp w) as [temp_dir|e] eqn:Htemp; run.
  2: { left. rewrite Hd2, Ht2, Hd1, <- !List.app_assoc. by eauto. }
  right. exists real, temp_dir. apply truthy_true in Htok.
  repeat (split; [done|]). unfold with_block. cbn zeta.
  rewrite Hd2, Hd1, Ht2, !List.app_assoc.
  destruct (create_zip w real _ _) as [[] s3]; cbn [fst snd negb]; run; [|done].
  destruct (upload_to_hf w _ _ _ s3) as [[url|] s4]; cbn [fst snd]; run; [|done].
  by destruct (Py.truthy url).
Qed.

(** Whatever its inputs, [upload_folder] uploads only after both validators
    passed and the archive was created: every upload in the trace goes to the
    destination given, with the credential given, and carries an archive
    opened for deflate at level 6, under a commit message that ends with the
    name in the repository. *)
Theorem upload_folder_uploads w hf_token repo_id input zip_name s :
  let r := upload_folder w hf_token repo_id input zip_name s in
  ∃ new,
    trace r.2 = trace s ++ new ∧
    ∀ path_in_repo dest token message payload,
      In (UploadFile path_in_repo dest token message payload) new →
      dest = repo_id ∧ token = hf_token ∧ hf_token ≠ "" ∧
      (validate_repo repo_id).1 = true ∧
      message = "Upload automático: " +:+ path_in_repo ∧
      (∃ zip_path, In (ZipOpen zip_path) new
                   ∧ path_in_repo = os_path_basename zip_path) ∧
      ∃ z, payload = Some z ∧ Zip.method z = Zip.ZIP_DEFLATED
           ∧ Zip.compresslevel z = Some 6.
Proof.
  cbn zeta.
  destruct (upload_folder_structure w hf_token repo_id input zip_name s)
    as (pre & Hpre & [(_ & Ht & _)|(real & temp_dir & Htok & Hrepo & _ & _ & Hr)]).
  { exists pre. split; [done|]. intros ????? Hin.
    rewrite List.Forall_forall in Hpre. by destruct (Hpre _ Hin). }
  rewrite Hr. unfold with_block. cbn zeta.
  set (zip_path := os_path_join temp_dir _).
  set (s2 := {| disk := disk s; trace := trace s ++ pre |}).
  destruct (create_zip_outcome w real zip_path s2)
    as [Hcz|[[_ Hcz]|(_ & z & Hcz & Hm & Hl)]]; cbn zeta in *.
  { rewrite Hcz. cbn [fst snd cleanup trace]. exists pre. split; [done|].
    intros ????? Hin. rewrite List.Forall_forall in Hpre.
    by destruct (Hpre _ Hin). }
  { rewrite Hcz. cbn [fst snd cleanup trace].
    exists (pre ++ [ZipOpen zip_path]). split; [by rewrite List.app_assoc|].
    intros ????? [Hin|[?|[]]]%in_app_iff; [|done].
    rewrite List.Forall_forall in Hpre. by destruct (Hpre _ Hin). }
  destruct (create_zip w real zip_path s2) as [zipped s3]. cbn [fst snd] in *.
  subst s3. destruct zipped; cbn [fst snd cleanup trace].
  2: { exists (pre ++ [ZipOpen zip_path]). split; [by rewrite List.app_assoc|].
       intros ????? [Hin|[?|[]]]%in_app_iff; [|done].
       rewrite List.Forall_forall in Hpre. by destruct (Hpre _ Hin). }
  match goal with |- context [upload_to_hf w zip_path repo_id hf_token ?st] =>
    pose proof (upload_to_hf_spec w zip_path repo_id hf_token st) as Hspec;
    destruct (upload_to_hf w zip_path repo_id hf_token st) as [res s4]
  end.
  cbn zeta in Hspec. cbn [fst snd disk trace] in *.
  rewrite lookup_insert_eq in Hspec. unfold extends in Hspec.
  assert (∀ hub,
    (∀ e, In e hub → e = RepoInfo repo_id hf_token ∨ e = CreateRepo repo_id hf_token
       ∨ e = UploadFile (os_path_basename zip_path) repo_id hf_token
               ("Upload automático: " +:+ os_path_basename zip_path) (Some z)) →
    trace s4 = ((trace s ++ pre) ++ [ZipOpen zip_path]) ++ hub →
    ∃ new, trace s4 = trace s ++ new ∧
      ∀ path_in_repo dest token message payload,
        In (UploadFile path_in_repo dest token message payload) new →
        dest = repo_id ∧ token = hf_token ∧ hf_token ≠ "" ∧
        (validate_repo repo_id).1 = true ∧
        message = "Upload automático: " +:+ path_in_repo ∧
        (∃ zp, In (ZipOpen zp) new ∧ path_in_repo = os_path_basename zp) ∧
        ∃ z0, payload = Some z0 ∧ Zip.method z0 = Zip.ZIP_DEFLATED
              ∧ Zip.compresslevel z0 = Some 6) as Hgen.
  { intros hub Hhub Ht. exists (pre ++ [ZipOpen zip_path] ++ hub).
    split; [by rewrite Ht, <- !List.app_assoc|].
    intros ????? [Hin|[?|Hin]]%in_app_iff.
    - rewrite List.Forall_forall in Hpre. by destruct (Hpre _ Hin).
    - done.
    - destruct (Hhub _ Hin) as [?|[?|[= -> -> -> -> ->]]]; try done.
      repeat (split; [done|]). split; [|by exists z].
      exists zip_path. split; [|done]. apply in_app_iff. right. by left. }
  destruct Hspec as [_ [(_ & Ht & _)|[(_ & _ & Ht & _)|(_ & _ & Ht & _)]]];
    (eapply Hgen; [|exact Ht]);
    intros e He; simpl in He; intuition.
Qed.

(** ** Where the archive is written *)

Lemma contains_startswith s : Py.contains "/" s = false → Py.startswith s "/" = false.
Proof.
  destruct s as [|c s]; [done|]. simpl.
  intros [-> _]%orb_false_iff. done.
Qed.

Lemma last_Forall {A} (P : A → Prop) (l : list A) d :
  Forall P l → P d → P (List.last l d).
Proof.
  intros Hl Hd. induction Hl as [|x l Hx Hl IH]; [done|].
  destruct l; [done|]. apply IH.
Qed.

Lemma Path_name_no_slash p : Py.startswith (Path_name p) "/" = false.
Proof.
  unfold Path_name, components. apply last_Forall; [|done].
  apply List.Forall_forall. intros x [Hx _]%filter_In.
  apply contains_startswith.
  pose proof (split_parts "/" p) as Hall. rewrite List.Forall_forall in Hall.
  by apply Hall.
Qed.

Lemma take_startswith n s :
  Py.startswith s "/" = false → Py.startswith (Py.take n s) "/" = false.
Proof. destruct n, s; try done. Qed.

(** A custom name that does not begin with a slash gives a file name that
    does not either. *)
Lemma generate_zip_name_relative t folder_path zip_name :
  Py.startswith zip_name "/" = false →
  Py.startswith (generate_zip_name t folder_path (Some zip_name)) "/" = false.
Proof.
  intros Hz. unfold generate_zip_name.
  destruct (_ && _).
  - rewrite startswith_slash_app.
    destruct (Py.endswith _ _).
    + pose proof (take_startswith (String.length zip_name - 4) zip_name Hz) as Ht.
      unfold Py.drop_last. by destruct (Py.take _ _).
    + by destruct zip_name.
  - rewrite startswith_slash_app. pose proof (Path_name_no_slash folder_path).
    by destruct (Path_name folder_path).
Qed.

Lemma os_path_join_inside temp_dir name :
  temp_dir ≠ "" → Py.endswith temp_dir "/" = false →
  Py.startswith name "/" = false →
  os_path_join temp_dir name = (temp_dir +:+ "/") +:+ name.
Proof.
  intros Ht He Hn. unfold os_path_join. apply truthy_true in Ht.
  rewrite Hn, Ht, He. cbn [negb orb]. by rewrite app_assoc'.
Qed.

Lemma contains_app c s t :
  Py.contains c (s +:+ t) = Py.contains c s || Py.contains c t.
Proof.
  induction s as [|d s IH]; [done|]. rewrite app_cons. simpl.
  by rewrite IH, orb_assoc.
Qed.

Lemma contains_take c n s :
  Py.contains c s = false → Py.contains c (Py.take n s) = false.
Proof.
  revert s. induction n as [|n IH]; intros [|d s]; try done. simpl.
  intros [-> H]%orb_false_iff. by apply IH.
Qed.

Lemma digit_no_slash n : Ascii.eqb "/" (digit n) = false.
Proof.
  unfold digit.
  assert (n mod 10 < 10) as Hlt by (apply Nat.mod_upper_bound; lia).
  generalize dependent (n mod 10). intros k Hk.
  do 10 (destruct k as [|k]; [reflexivity|]). lia.
Qed.

Lemma pad2_no_slash n : Py.contains "/" (pad2 n) = false.
Proof. unfold pad2. cbn [Py.contains]. by rewrite !digit_no_slash. Qed.

Lemma unpadded_no_slash n : Py.contains "/" (unpadded n) = false.
Proof.
  unfold unpadded, pad4.
  destruct (Nat.ltb n 10); [|destruct (Nat.ltb n 100); [|destruct (Nat.ltb n 1000)]];
    cbn [Py.contains]; by rewrite ?digit_no_slash, ?pad2_no_slash.
Qed.

Lemma timestamp_no_slash t :
  Py.contains "/" (strftime t "%Y%m%d_%H%M%S") = false.
Proof.
  change (strftime t "%Y%m%d_%H%M%S")
    with (unpadded (year t) +:+ pad2 (month t) +:+ pad2 (day t) +:+ "_"
          +:+ pad2 (hour t) +:+ pad2 (minute t) +:+ pad2 (second t)).
  by rewrite !contains_app, unpadded_no_slash, !pad2_no_slash.
Qed.

Lemma Path_name_contains p : Py.contains "/" (Path_name p) = false.
Proof.
  unfold Path_name, components. apply last_Forall; [|done].
  apply List.Forall_forall. intros x [Hx _]%filter_In.
  pose proof (split_parts "/" p) as Hall. rewrite List.Forall_forall in Hall.
  by apply Hall.
Qed.

(** The name is a base, an underscore, the timestamp and the extension;
    a custom name without slash gives a base without slash. *)
Lemma generate_zip_name_shape t folder_path zip_name :
  ∃ base,
    generate_zip_name t folder_path (Some zip_name)
    = base +:+ "_" +:+ strftime t "%Y%m%d_%H%M%S" +:+ ".zip"
    ∧ (Py.contains "/" zip_name = false → Py.contains "/" base = false).
Proof.
  unfold generate_zip_name. destruct (_ && _).
  - destruct (Py.endswith _ _).
    + eexists. split; [done|]. apply contains_take.
    + by eexists.
  - eexists. split; [done|]. intros _. apply Path_name_contains.
Qed.

(** A custom name without slash gives a file name that a directory entry
    can bear. *)
Lemma generate_zip_name_plain_name t folder_path zip_name :
  Py.contains "/" zip_name = false →
  FS.plain (generate_zip_name t folder_path (Some zip_name)).
Proof.
  intros Hz.
  destruct (generate_zip_name_shape t folder_path zip_name) as (base & -> & Hb).
  assert (5 <= String.length
                 (base +:+ "_" +:+ strftime t "%Y%m%d_%H%M%S" +:+ ".zip"))
    as Hlen by (rewrite !length_app; simpl; lia).
  repeat split.
  - intros E. rewrite E in Hlen. simpl in Hlen. lia.
  - rewrite !contains_app, (Hb Hz), timestamp_no_slash. done.
  - intros E. rewrite E in Hlen. simpl in Hlen. lia.
  - intros E. rewrite E in Hlen. simpl in Hlen. lia.
Qed.

Lemma resolve_app place l k :
  resolve place (l ++ k) = resolve (resolve place l) k.
Proof.
  revert place. induction l as [|c l IH]; intros place; [done|]. simpl.
  destruct (String.eqb c ".."); apply IH.
Qed.

Lemma below_child dir name : below dir (dir ++ [name]) = true.
Proof.
  induction dir as [|d dir IH]; [done|]. simpl. by rewrite String.eqb_refl.
Qed.

(** A file named in a directory lies in it. *)
Lemma inside_child dir name :
  Py.startswith dir "/" = true → FS.plain name →
  inside dir (dir +:+ "/" +:+ name) = true.
Proof.
  intros Hd (H1 & H2 & H3 & H4). unfold inside, location.
  rewrite Hd. assert (Py.startswith (dir +:+ "/" +:+ name) "/" = true) as ->.
  { destruct dir as [|c dir]; [done|]. exact Hd. }
  cbn [andb].
  rewrite components_child, resolve_app by done. simpl.
  destruct (String.eqb_spec name ".."); [done|]. apply below_child.
Qed.

(** When the custom name holds no slash, [upload_folder] leaves no file
    behind: whatever happens, every output file present when it returns was
    there, unchanged, when it was called.  The temporary directory is named,
    as [tempfile] does, by an absolute path that does not end with a
    slash. *)
Theorem upload_folder_no_leftover w hf_token repo_id input zip_name s :
  Py.contains "/" zip_name = false →
  (∀ temp_dir, mkdtemp w = inl temp_dir →
     Py.startswith temp_dir "/" = true ∧ Py.endswith temp_dir "/" = false) →
  let r := upload_folder w hf_token repo_id input zip_name s in
  ∀ p z, disk r.2 !! p = Some z → disk s !! p = Some z.
Proof.
  intros Hz Htemp. cbn zeta.
  destruct (upload_folder_structure w hf_token repo_id input zip_name s)
    as (pre & _ & [(Hd & _)|(real & temp_dir & _ & _ & _ & Hmk & Hr)]).
  { by rewrite Hd. }
  destruct (Htemp _ Hmk) as [Habs Hend].
  assert (temp_dir ≠ "") as Hne by (by intros ->).
  rewrite Hr. unfold with_block. cbn zeta.
  pose proof (generate_zip_name_plain_name (now w) real zip_name Hz) as Hplain.
  rewrite (os_path_join_inside _ _ Hne Hend
             (generate_zip_name_relative (now w) real zip_name
                (contains_startswith _ Hz))).
  rewrite app_assoc'.
  set (zip_path := temp_dir +:+ "/" +:+ _).
  assert (inside temp_dir zip_path = true) as Hin by (by apply inside_child).
  set (s2 := {| disk := disk s; trace := trace s ++ pre |}).
  assert (∀ s3, (disk s3 = disk s ∨ ∃ a, disk s3 = <[zip_path := a]> (disk s)) →
          ∀ p z, disk (cleanup temp_dir s3).2 !! p = Some z →
                 disk s !! p = Some z) as Hclean.
  { intros s3 Hs3 p z. cbn [cleanup snd disk].
    intros [Hp Hpre]%map_lookup_filter_Some. cbn [fst] in Hpre.
    destruct Hs3 as [Hs3|[a Hs3]]; rewrite Hs3 in Hp; [done|].
    rewrite lookup_insert_ne in Hp; [done|]. intros <-. congruence. }
  destruct (create_zip_outcome w real zip_path s2)
    as [Hcz|[[_ Hcz]|(_ & a & Hcz & _)]]; cbn zeta in *.
  { rewrite Hcz. cbn [fst snd]. apply Hclean. by left. }
  { rewrite Hcz. cbn [fst snd]. apply Hclean. by left. }
  destruct (create_zip w real zip_path s2) as [zipped s3]. cbn [fst snd] in *.
  destruct zipped.
  - pose proof (upload_to_hf_spec w zip_path repo_id hf_token s3) as [Hd _].
    destruct (upload_to_hf w zip_path repo_id hf_token s3) as [res s4].
    cbn [fst snd] in *. apply Hclean. right. exists a. by rewrite Hd, Hcz.
  - apply Hclean. right. exists a. by rewrite Hcz.
Qed.

(** ** The number of members of the archive *)

Section count.
Import FS.









End count.



(** ** The call from the host *)

Lemma find_none_all {A} (f : A → bool) l :
  (∀ x, In x l → f x = false) → List.find f l = None.
Proof.
  induction l as [|x l IH]; [done|]. intros H. simpl.
  rewrite (H x) by (by left). apply IH. intros. apply H. by right.
Qed.

(** Called with exactly the seven parameters of its signature, in any
    order and with any values for the three triggers, [upload_folder] runs
    and hands back a tuple of one string: the URL, or a message that starts
    with the marker. *)
Theorem invoke_seven_parameters w kwargs hf_token repo_id folder_path zip_name
    t1 t2 t3 s :
  forallb (λ kv, existsb (String.eqb kv.1) upload_folder_parameters) kwargs
  = true →
  keyword "hf_token" kwargs = Some (Str hf_token) →
  keyword "repo_id" kwargs = Some (Str repo_id) →
  keyword "folder_path" kwargs = Some (Str folder_path) →
  keyword "zip_name" kwargs = Some (Str zip_name) →
  keyword "trigger_image_1" kwargs = Some t1 →
  keyword "trigger_image_2" kwargs = Some t2 →
  keyword "trigger_image_3" kwargs = Some t3 →
  let r := upload_folder w hf_token repo_id folder_path zip_name s in
  ∃ text,
    invoke w kwargs s = (inr [text], r.2) ∧
    (r.1 = Url text ∨ (r.1 = Failure text ∧ Py.startswith text marker = true)).
Proof.
  intros Hall H1 H2 H3 H4 H5 H6 H7. cbn zeta. unfold invoke, bind_keywords.
  assert (List.find (λ kv, negb (existsb (String.eqb kv.1) upload_folder_parameters))
            kwargs = None) as ->.
  { apply find_none_all. intros kv Hkv. apply negb_false_iff.
    rewrite forallb_forall in Hall. by apply Hall. }
  unfold upload_folder_parameters. cbn [take_arguments].
  rewrite H1, H2, H3, H4, H5, H6, H7. run.
  destruct (upload_folder w hf_token repo_id folder_path zip_name s)
    as [[url|message] s'] eqn:Hr; cbn [fst snd output].
  - exists url. split; [done|]. by left.
  - exists message. split; [done|]. right. split; [done|].
    eapply upload_folder_failure_marked. by rewrite Hr.
Qed.

Lemma invoke_seven_parameters_witness :
  let r := upload_folder demo_world "hf_token_value" "alice/pack"
             "/workspace/demo" "" initial in
  ∃ text,
    invoke demo_world
      [("trigger_image_2", Image); ("zip_name", Str "");
       ("hf_token", Str "hf_token_value"); ("trigger_image_1", Image);
       ("folder_path", Str "/workspace/demo"); ("repo_id", Str "alice/pack");
       ("trigger_image_3", Str "anything")] initial
    = (inr [text], r.2) ∧
    (r.1 = Url text ∨ (r.1 = Failure text ∧ Py.startswith text marker = true)).
Proof.
  refine (invoke_seven_parameters demo_world
            [("trigger_image_2", Image); ("zip_name", Str "");
             ("hf_token", Str "hf_token_value"); ("trigger_image_1", Image);
             ("folder_path", Str "/workspace/demo"); ("repo_id", Str "alice/pack");
             ("trigger_image_3", Str "anything")]
            "hf_token_value" "alice/pack" "/workspace/demo" ""
            Image Image (Str "anything") initial
            eq_refl eq_refl eq_refl eq_refl eq_refl eq_refl eq_refl eq_refl).
Defined.

(** ** A run of [upload_folder] in which the archive cannot be created *)

(** When the folder is found and holds a regular file but the archive
    cannot be created at its path (a custom name that names a directory
    which does not exist in the temporary directory, say), [upload_folder]
    returns the failure of the archive step: the archive was tried, nothing
    was written and the hub was not called. *)
Theorem upload_folder_archive_failure w hf_token repo_id input zip_name s
    before c after temp_dir children :
  library_state w = Importable → hf_token ≠ "" →
  (validate_repo repo_id).1 = true →
  possible_paths input = before ++ c :: after →
  Forall (λ x, isdir w x = false) before → isdir w c = true →
  realpath w c ≠ "" → mkdtemp w = inl temp_dir →
  FS.lookup (fs w) (Path (realpath w c)) = Some (FS.Dir children) →
  FS.wf (FS.Dir children) →
  (∃ rel data, FS.descend (FS.Dir children) rel = Some (FS.File data)) →
  can_open w (os_path_join temp_dir
                (generate_zip_name (now w) (realpath w c) (Some zip_name)))
  = false →
  upload_folder w hf_token repo_id input zip_name s =
  (Failure "❌ Falha ao criar ZIP",
   (cleanup temp_dir
      {| disk := disk s;
         trace := trace s ++ map IsDir (before ++ [c])
                  ++ [RealPath c; MkTemp;
                      ZipOpen (os_path_join temp_dir
                                 (generate_zip_name (now w) (realpath w c)
                                    (Some zip_name)))] |}).2).
Proof.
  intros Hlib Htok Hrepo Hcand Hbefore Hfound Hreal Htemp Hp Hwf
    (rel & data & Hfile) Hopen.
  unfold upload_folder, install_dependencies, find_folder.
  rewrite Hlib. run.
  rewrite validate_token_verdict. apply truthy_true in Htok.
  rewrite Htok, Hrepo. cbn [negb]. run.
  rewrite Hcand, first_directory_found by done. cbn [fst snd].
  apply truthy_true in Hreal. rewrite Hreal. cbn [negb]. run.
  rewrite Htemp. run.
  rewrite (create_zip_unopened w _ _ _ children rel data) by done.
  cbn [fst snd negb disk trace]. run.
  do 3 f_equal. by rewrite <- !List.app_assoc.
Qed.

Lemma upload_folder_archive_failure_witness :
  upload_folder demo_world "hf_token_value" "alice/pack" "workspace/demo"
    "sub/pack" initial
  = (Failure "❌ Falha ao criar ZIP",
     (cleanup "/tmp/tmpk3v9"
        {| disk := disk initial;
           trace := trace initial ++ map IsDir ([] ++ ["/workspace/demo"])
                    ++ [RealPath "/workspace/demo"; MkTemp;
                        ZipOpen (os_path_join "/tmp/tmpk3v9"
                                   (generate_zip_name (now demo_world)
                                      (realpath demo_world "/workspace/demo")
                                      (Some "sub/pack")))] |}).2).
Proof.
  apply (upload_folder_archive_failure demo_world "hf_token_value" "alice/pack"
           "workspace/demo" "sub/pack" initial []
           "/workspace/demo"
           ["workspace/demo"; "./workspace/demo"; "../workspace/demo";
            "/workspace/workspace/demo"]
           "/tmp/tmpk3v9" demo_entries).
  - reflexivity.
  - discriminate.
  - reflexivity.
  - reflexivity.
  - apply List.Forall_nil.
  - reflexivity.
  - discriminate.
  - reflexivity.
  - reflexivity.
  - exact demo_folder_wf.
  - exists ["a.txt"], "alpha". reflexivity.
  - reflexivity.
Defined.

(** ** The ways [upload_folder] returns *)

(** [upload_folder] returns one of eight things, each only under its cause:
    the failure of the installation, with the text of the exception, only
    when the client library is missing; the invalid-credential message only
    for the empty credential; the invalid-destination message only when
    [validate_repo] rejects; the message that the folder was not found; the
    message of the exception only when the temporary directory cannot be
    created; the failure of the archive; the failure of the upload; or a URL
    that is not empty. *)
Theorem upload_folder_cases w hf_token repo_id folder_path zip_name s :
  let o := (upload_folder w hf_token repo_id folder_path zip_name s).1 in
  (∃ e, library_state w = Missing (Some e) ∧
        o = Failure ("❌ Erro ao instalar dependências: " +:+ e))
  ∨ (hf_token = "" ∧ o = Failure "❌ Token inválido")
  ∨ ((validate_repo repo_id).1 = false ∧ o = Failure "❌ Repositório inválido")
  ∨ o = Failure "❌ Pasta não encontrada"
  ∨ (∃ e, mkdtemp w = inr e ∧ o = Failure ("❌ Erro durante o processo: " +:+ e))
  ∨ o = Failure "❌ Falha ao criar ZIP"
  ∨ o = Failure "❌ Falha no upload"
  ∨ (∃ url, url ≠ "" ∧ o = Url url).
Proof. apply upload_folder_returns. Qed.

(** ** The theorems above at the sample inputs *)

Lemma upload_folder_install_failure_witness :
  upload_folder broken_world "hf_token_value" "alice/pack" "workspace/demo" ""
    initial =
  (Failure ("❌ Erro ao instalar dependências: " +:+ "pip exited with status 1"),
   {| disk := disk initial; trace := trace initial ++ [PipInstall] |}).
Proof. apply upload_folder_install_failure. reflexivity. Defined.

Lemma upload_folder_after_install_witness :
  upload_folder fresh_world "hf_token_value" "alice/pack" "workspace/demo" ""
    initial =
  upload_folder (installed fresh_world) "hf_token_value" "alice/pack"
    "workspace/demo" ""
    {| disk := disk initial; trace := trace initial ++ [PipInstall] |}.
Proof. apply upload_folder_after_install. reflexivity. Defined.

Lemma upload_folder_missing_token_witness :
  upload_folder demo_world "" "alice/pack" "workspace/demo" "" initial
  = (Failure "❌ Token inválido", initial).
Proof. apply upload_folder_missing_token. reflexivity. Defined.

Lemma upload_folder_not_found_witness :
  upload_folder demo_world "hf_token_value" "alice/pack" "nowhere" "" initial =
  (Failure "❌ Pasta não encontrada",
   {| disk := disk initial;
      trace := trace initial ++ map IsDir (possible_paths "nowhere") |}).
Proof.
  apply upload_folder_not_found.
  - reflexivity.
  - discriminate.
  - reflexivity.
  - repeat (apply List.Forall_cons; [reflexivity|]). apply List.Forall_nil.
Defined.


Lemma upload_folder_upload_failure_witness :
  (upload_folder refusing_world "hf_token_value" "alice/pack" "workspace/demo" ""
     initial).1
  = Failure "❌ Falha no upload".
Proof.
  eapply proj1.
  eapply (upload_folder_upload_failure refusing_world "hf_token_value"
            "alice/pack" "workspace/demo" "" []
            ["workspace/demo"; "./workspace/demo"; "../workspace/demo";
             "/workspace/workspace/demo"]
            "/workspace/demo" "/tmp/tmpk3v9" demo_entries).
  - reflexivity.
  - discriminate.
  - reflexivity.
  - reflexivity.
  - apply List.Forall_nil.
  - reflexivity.
  - discriminate.
  - reflexivity.
  - reflexivity.
  - exact demo_folder_wf.
  - exists ["a.txt"], "alpha". reflexivity.
  - reflexivity.
  - intros rel. reflexivity.
  - right. left. reflexivity.
Defined.


(** A custom name that names a directory which does not exist makes the
    archive step fail; one that climbs out of the temporary directory
    leaves the archive behind. *)
Example upload_folder_custom_directory :
  upload_folder demo_world "hf_token_value" "alice/pack" "workspace/demo"
    "sub/pack" initial
  = (Failure "❌ Falha ao criar ZIP",
     {| disk := ∅;
        trace := [IsDir "/workspace/demo"; RealPath "/workspace/demo"; MkTemp;
                  ZipOpen "/tmp/tmpk3v9/sub/pack_20240307_090559.zip"] |})
  ∧ is_Some
      (disk (upload_folder demo_world "hf_token_value" "alice/pack"
               "workspace/demo" "../pack" initial).2
       !! "/tmp/tmpk3v9/../pack_20240307_090559.zip").
Proof.
  split; [reflexivity|].
  match goal with
  | |- is_Some ?x => destruct x eqn:E; [by eexists|vm_compute in E; discriminate E]
  end.
Qed.

Lemma upload_folder_no_leftover_witness :
  disk (upload_folder demo_world "hf_token_value" "alice/pack"
          "workspace/demo" "pack.zip" initial).2
  !! "/tmp/tmpk3v9/pack_20240307_090559.zip" = None.
Proof.
  destruct (disk _ !! _) as [z|] eqn:Hz; [|reflexivity].
  apply (upload_folder_no_leftover demo_world "hf_token_value" "alice/pack"
           "workspace/demo" "pack.zip" initial) in Hz.
  - discriminate Hz.
  - reflexivity.
  - intros temp_dir [= <-]. split; reflexivity.
Defined.

Lemma validate_repo_exact_witness :
  (validate_repo "alice/pack").1 = true ∧ (validate_repo "alice/pack").2 = [].
Proof.
  destruct (validate_repo_exact "alice/pack") as [[_ Hacc] Hquiet].
  assert ((validate_repo "alice/pack").1 = true) as H.
  { apply Hacc. exists "alice", "pack".
    split; [reflexivity|]. split; [discriminate|]. split; [discriminate|].
    split; reflexivity. }
  split; [exact H|exact (Hquiet H)].
Defined.
